(** * competitor-scrape.py: the site crawler, its link filter, page parser
      and artifact naming

    A shallow embedding of [src/competitor-scrape.py].  Python [str] values
    are Stdlib [string]s (one [ascii] per character, code points below 256),
    [int] values are [Z], the [visited] set is a [gset string], dictionaries
    and the file system are [gmap]s, and the [to_visit] list is a [list]
    used as a FIFO queue.  What the network, the disk and the random
    generator answer is given by functions of the loop's clock. *)

From Stdlib Require Import ZArith QArith Ascii String List Sorted Lia Lqa.
From stdpp Require Import base option list gmap strings sorting.

Set Warnings "-register-all".

Local Open Scope string_scope.
Local Open Scope Z_scope.

(** ** Python string operations used by the script *)

Module PyStr.

(** [s.startswith(p)] *)
Definition startswith (s p : string) : bool := String.prefix p s.

(** [needle in hay] *)
Fixpoint contains (needle hay : string) : bool :=
  String.prefix needle hay
  || match hay with
     | EmptyString => false
     | String _ rest => contains needle rest
     end.

(** [s.replace(old, new)] for a non-empty [old]: the occurrences are taken
    from the left and do not overlap.  [skip] counts the characters of a
    matched occurrence that are still to be dropped. *)
Fixpoint replace_from (old new : string) (skip : nat) (s : string) : string :=
  match s with
  | EmptyString => EmptyString
  | String c rest =>
      match skip with
      | S k => replace_from old new k rest
      | O =>
          if String.prefix old s
          then new ++ replace_from old new (Nat.pred (String.length old)) rest
          else String c (replace_from old new O rest)
      end
  end.

(** With an empty [old] Python puts [new] before every character and at
    the end. *)
Fixpoint intersperse_all (new s : string) : string :=
  match s with
  | EmptyString => new
  | String c rest => new ++ String c (intersperse_all new rest)
  end.

Definition replace (s old new : string) : string :=
  match old with
  | EmptyString => intersperse_all new s
  | _ => replace_from old new O s
  end.

Fixpoint lstrip_by (p : ascii -> bool) (s : string) : string :=
  match s with
  | EmptyString => EmptyString
  | String c rest => if p c then lstrip_by p rest else s
  end.

Fixpoint rstrip_by (p : ascii -> bool) (s : string) : string :=
  match s with
  | EmptyString => EmptyString
  | String c rest =>
      match rstrip_by p rest with
      | EmptyString => if p c then EmptyString else String c EmptyString
      | kept => String c kept
      end
  end.

Definition strip_by (p : ascii -> bool) (s : string) : string :=
  rstrip_by p (lstrip_by p s).

(** [s.strip(chars)] *)
Definition strip_chars (chars : string) (s : string) : string :=
  strip_by (fun c => contains (String c EmptyString) chars) s.

(** [str.isspace] on one character with a code point below 256. *)
Definition isspace (c : ascii) : bool :=
  let n := nat_of_ascii c in
  ((9 <=? n) && (n <=? 13) || (28 <=? n) && (n <=? 32)
   || (n =? 133) || (n =? 160))%nat.

(** [s.strip()] *)
Definition strip (s : string) : string := strip_by isspace s.

(** [s[:n]] for a non-negative [n] *)
Fixpoint slice_to (n : nat) (s : string) : string :=
  match n, s with
  | S k, String c rest => String c (slice_to k rest)
  | _, _ => EmptyString
  end.

(** [sep.join(parts)] *)
Fixpoint join (sep : string) (parts : list string) : string :=
  match parts with
  | [] => EmptyString
  | [p] => p
  | p :: rest => p ++ sep ++ join sep rest
  end.

(** Truthiness of a [str]: [a or b]. *)
Definition or_else (a b : string) : string :=
  match a with EmptyString => b | _ => a end.

End PyStr.

(** ** Utility functions *)

(** [safe_filename], line 57 *)
Definition safe_filename (url : string) : string :=
  PyStr.replace
    (PyStr.replace
       (PyStr.replace
          (PyStr.replace
             (PyStr.replace (PyStr.strip_chars "/" url) "/" "_")
             ":" "")
          "?" "")
       "&" "")
    "=" "".

(** The [filename_base] computed on line 64 of [save_page]. *)
Definition filename_base (domain url : string) : string :=
  safe_filename
    (PyStr.or_else
       (PyStr.replace
          (PyStr.replace url ("https://" ++ domain) "")
          ("http://" ++ domain) "")
       "home").

(** [is_valid_link], line 88 *)
Definition blocked_fragments : list string :=
  ["#"; "/wp-login"; "/cart"; "/checkout"; "/account"].

Definition is_valid_link (link domain : string) : bool :=
  if negb (PyStr.startswith link "http") then false
  else if negb (PyStr.contains domain link) then false
  else if existsb (fun x => PyStr.contains x link) blocked_fragments then false
  else true.

(** ** The parsed document

    [BeautifulSoup(html, "lxml")] yields a tree.  A [NavigableString] is a
    text node that [get_text] yields; a [HiddenString] stands for the string
    classes that [get_text] leaves out (comments, script and style bodies).
    The soup itself is a [Tag] whose contents are the top-level nodes. *)

Inductive node : Type :=
| NavigableString (text : string)
| HiddenString (text : string)
| Tag (name : string) (attrs : gmap string string) (contents : list node).

Module Soup.

(** [tag.descendants]: every node below the tag, in document order. *)
Fixpoint descendants (n : node) : list node :=
  match n with
  | Tag _ _ contents => flat_map (fun c => c :: descendants c) contents
  | _ => []
  end.

Definition tag_named (names : list string) (n : node) : bool :=
  match n with
  | Tag name _ _ => bool_decide (name ∈ names)
  | _ => false
  end.

(** [tag.find_all(names)] *)
Definition find_all (names : list string) (n : node) : list node :=
  List.filter (tag_named names) (descendants n).

(** [soup.title], [soup.h1]: the first tag of that name, or [None]. *)
Definition find (name : string) (n : node) : option node :=
  head (find_all [name] n).

Definition has_attr (key : string) (n : node) : bool :=
  match n with
  | Tag _ attrs _ => bool_decide (is_Some (attrs !! key))
  | _ => false
  end.

(** [tag.find_all('a', href=True)] *)
Definition find_all_with (name key : string) (n : node) : list node :=
  List.filter (has_attr key) (find_all [name] n).

(** [tag[key]] on a tag known to carry the attribute. *)
Definition attr (key : string) (n : node) : string :=
  match n with
  | Tag _ attrs _ => default "" (attrs !! key)
  | _ => ""
  end.

(** [tag.string]: the single string below the tag, [None] when the tag has
    no child or more than one. *)
Fixpoint string_of (n : node) : option string :=
  match n with
  | NavigableString s => Some s
  | HiddenString s => Some s
  | Tag _ _ [c] => string_of c
  | Tag _ _ _ => None
  end.

(** The strings [get_text] collects; with [strip] each one is stripped and
    dropped when nothing is left. *)
Definition text_piece (strip : bool) (n : node) : list string :=
  match n with
  | NavigableString s =>
      if strip
      then match PyStr.strip s with
           | EmptyString => []
           | t => [t]
           end
      else [s]
  | _ => []
  end.

Definition all_strings (strip : bool) (n : node) : list string :=
  flat_map (text_piece strip) (descendants n).

(** [tag.get_text(separator, strip)] *)
Definition get_text (separator : string) (strip : bool) (n : node) : string :=
  PyStr.join separator (all_strings strip n).

End Soup.

(** The dictionary [extract_info] returns. *)
Record page_info : Type := PageInfo {
  title : string;
  h1 : string;
  h2s : list string;
  text_snippet : string
}.

(** What a file written by the script holds. *)
Inductive artifact : Type :=
| RawHtml (html : string)
| PageJson (info : page_info)
| MapJson (topics : gmap string (list string)).

(** [os.path.join] on two POSIX components. *)
Definition path_join (a b : string) : string :=
  if PyStr.startswith b "/" then b
  else match a with
       | EmptyString => b
       | _ => if PyStr.startswith (String.rev a) "/" then a ++ b
              else a ++ "/" ++ b
       end.

Definition OUTPUT_DIR : string := "competitor-scrape".
Definition TOPICAL_MAPS_DIR : string := path_join OUTPUT_DIR "topical-maps".
Definition RAW_PAGES_DIR : string := path_join OUTPUT_DIR "raw_pages".

(** ** Events of one crawl

    The crawl keeps a log of what it did; each event stands at the source
    line that performs it. *)
Inductive event : Type :=
| Dequeued (url : string) (depth : Z)
    (* line 129, [to_visit.pop(0)] *)
| Fetched (url : string)
    (* line 135, [requests.get] is called *)
| FailedStatus (url : string) (status : Z)
    (* line 138, [continue] on a status other than 200 *)
| Errored (url : string)
    (* line 160, the [except Exception] handler *)
| Enqueued (link : string) (depth : Z) (parent : string) (parent_depth : Z)
    (* line 152, [to_visit.append] while [parent] is processed *)
| Scraped (url : string)
    (* line 154, [visited.add] *)
| Slept (seconds : Q).
    (* line 49, [time.sleep] *)

(** The local variables of [crawl_site], with the file system and the log. *)
Record crawl_state : Type := CrawlState {
  visited : gset string;
  to_visit : list (string * Z);
  topical_map : gmap string (list string);
  files : gmap string artifact;
  clock : nat;
  log : list event  (* oldest first *)
}.

(** The dictionary [crawl_site] returns. *)
Record site_result : Type := SiteResult {
  domain : string;
  pages_scraped : Z
}.

(** ** The script's functions over the libraries and the outside world *)

Section Scraper.

(** The library calls the script relies on. *)
Variable lxml : string -> node.
  (* [BeautifulSoup(html, "lxml")] *)
Variable urljoin : string -> string -> option string.
  (* [urllib.parse.urljoin]; [None] when it raises [ValueError] *)
Variable netloc : string -> string.
  (* [urlparse(url).netloc] *)
Variable list_of_set : gset string -> list string.
  (* [list(a_set)]: the iteration order of a Python set *)

(** The outside world, asked at the time [clock] of the loop iteration. *)
Variable http_get : nat -> string -> option (Z * string).
  (* [requests.get]: [None] when it raises, else status code and text *)
Variable disk_ok : nat -> string -> bool.
  (* whether creating or opening that path for writing succeeds *)
Variable random_unit : nat -> Q.
  (* what [random.random()] returns *)

(** [extract_info], line 74.  [None] stands for the [AttributeError] of
    [soup.title.string.strip()] when [soup.title.string] is [None]. *)
Definition extract_info (html : string) : option page_info :=
  let soup := lxml html in
  match
    match Soup.find "title" soup with
    | Some t =>
        match Soup.string_of t with
        | Some s => Some (PyStr.strip s)
        | None => None
        end
    | None => Some ""
    end
  with
  | None => None
  | Some title =>
      let h1 :=
        match Soup.find "h1" soup with
        | Some h => Soup.get_text "" true h
        | None => ""
        end in
      let h2s := take 5 (List.map (Soup.get_text "" true)
                                  (Soup.find_all ["h2"] soup)) in
      let text_snippet := PyStr.slice_to 500 (Soup.get_text " " true soup) in
      Some (PageInfo title h1 h2s text_snippet)
  end.

(** The anchors [get_nav_links] looks at, in the order of its two loops. *)
Definition nav_anchors (soup : node) : list node :=
  flat_map (Soup.find_all_with "a" "href")
           (Soup.find_all ["nav"; "header"; "footer"] soup).

(** The body of the loops of [get_nav_links]: [links] is the set built so
    far; [None] when [urljoin] raises. *)
Fixpoint collect_links (base_url domain : string) (anchors : list node)
    (links : gset string) : option (gset string) :=
  match anchors with
  | [] => Some links
  | a :: rest =>
      match urljoin base_url (Soup.attr "href" a) with
      | None => None
      | Some full_url =>
          collect_links base_url domain rest
            (if is_valid_link full_url domain then links ∪ {[full_url]}
             else links)
      end
  end.

(** [get_nav_links], line 97 *)
Definition get_nav_links (html base_url domain : string)
    : option (list string) :=
  match collect_links base_url domain (nav_anchors (lxml html)) ∅ with
  | Some links => Some (list_of_set links)
  | None => None
  end.

(** State updates. *)
Definition emit (e : event) (s : crawl_state) : crawl_state :=
  CrawlState (visited s) (to_visit s) (topical_map s) (files s) (clock s)
             (log s ++ [e]).

Definition set_to_visit (q : list (string * Z)) (s : crawl_state)
    : crawl_state :=
  CrawlState (visited s) q (topical_map s) (files s) (clock s) (log s).

Definition set_visited (v : gset string) (s : crawl_state) : crawl_state :=
  CrawlState v (to_visit s) (topical_map s) (files s) (clock s) (log s).

Definition set_topical_map (m : gmap string (list string)) (s : crawl_state)
    : crawl_state :=
  CrawlState (visited s) (to_visit s) m (files s) (clock s) (log s).

Definition write_file (path : string) (a : artifact) (s : crawl_state)
    : crawl_state :=
  CrawlState (visited s) (to_visit s) (topical_map s)
             (<[path := a]> (files s)) (clock s) (log s).

Definition tick (s : crawl_state) : crawl_state :=
  CrawlState (visited s) (to_visit s) (topical_map s) (files s)
             (S (clock s)) (log s).

(** [random_delay], line 46: [random.uniform(1.5, 5.0)] is
    [1.5 + (5.0 - 1.5) * random()]; the sleep is logged. *)
Definition uniform (a b : Q) (r : Q) : Q := (a + (b - a) * r)%Q.

Definition random_delay (s : crawl_state) : crawl_state :=
  emit (Slept (uniform (3 # 2) 5 (random_unit (clock s)))) s.

(** The two paths [save_page] writes, lines 61 to 66. *)
Definition html_path (domain url : string) : string :=
  path_join (path_join RAW_PAGES_DIR domain)
            (filename_base domain url ++ ".html").

Definition json_path (domain url : string) : string :=
  path_join (path_join RAW_PAGES_DIR domain)
            (filename_base domain url ++ ".json").

(** [save_page], line 60.  The flag tells whether it returned ([true]) or
    raised; what was written before the failure stays written. *)
Definition save_page (domain url html : string) (info : page_info)
    (s : crawl_state) : crawl_state * bool :=
  if negb (disk_ok (clock s) (path_join RAW_PAGES_DIR domain)) then (s, false)
  else if negb (disk_ok (clock s) (html_path domain url)) then (s, false)
  else
    let s1 := write_file (html_path domain url) (RawHtml html) s in
    if negb (disk_ok (clock s) (json_path domain url)) then (s1, false)
    else (write_file (json_path domain url) (PageJson info) s1, true).

(** Lines 150 to 152: the links of one page are appended unless visited or
    already queued. *)
Fixpoint enqueue_links (links : list string) (url : string) (depth : Z)
    (s : crawl_state) : crawl_state :=
  match links with
  | [] => s
  | link :: rest =>
      if bool_decide (link ∉ visited s)
         && bool_decide (link ∉ List.map fst (to_visit s))
      then enqueue_links rest url depth
             (emit (Enqueued link (depth + 1) url depth)
                (set_to_visit (to_visit s ++ [(link, depth + 1)]) s))
      else enqueue_links rest url depth s
  end.

(** The key under which a page enters the topical map, line 144. *)
Definition page_label (info : page_info) (url : string) : string :=
  PyStr.or_else (h1 info) (PyStr.or_else (title info) url).

Variable base_url : string.
Variable max_pages max_depth : Z.

(** Line 119 *)
Definition site_domain : string := PyStr.replace (netloc base_url) "www." "".

(** The [try] block with its handler, lines 133 to 160, for the entry
    [(url, depth)] that was just dequeued. *)
Definition visit (url : string) (depth : Z) (s : crawl_state) : crawl_state :=
  let s := emit (Fetched url) s in
  match http_get (clock s) url with
  | None => emit (Errored url) s
  | Some (status, html) =>
      if negb (status =? 200) then emit (FailedStatus url status) s
      else
        match extract_info html with
        | None => emit (Errored url) s
        | Some info =>
            match save_page site_domain url html info s with
            | (s, false) => emit (Errored url) s
            | (s, true) =>
                let s := set_topical_map
                           (<[page_label info url := []]> (topical_map s)) s in
                match
                  if depth <? max_depth
                  then match get_nav_links html base_url site_domain with
                       | Some links => Some (enqueue_links links url depth s)
                       | None => None
                       end
                  else Some s
                with
                | None => emit (Errored url) s
                | Some s =>
                    let s := emit (Scraped url)
                               (set_visited (visited s ∪ {[url]}) s) in
                    random_delay s
                end
            end
        end
  end.

(** The loop test, line 128 *)
Definition loop_cond (s : crawl_state) : bool :=
  negb (bool_decide (to_visit s = []))
  && (Z.of_nat (size (visited s)) <? max_pages).

(** One iteration of the loop, lines 129 to 160 *)
Definition loop_body (s : crawl_state) : crawl_state :=
  match to_visit s with
  | [] => s
  | (url, depth) :: rest =>
      let s := emit (Dequeued url depth) (set_to_visit rest (tick s)) in
      if bool_decide (url ∈ visited s) then s
      else visit url depth s
  end.

(** The [while] loop: [None] when [fuel] iterations were not enough. *)
Fixpoint crawl_loop (fuel : nat) (s : crawl_state) : option crawl_state :=
  if loop_cond s
  then match fuel with
       | O => None
       | S k => crawl_loop k (loop_body s)
       end
  else Some s.

(** The state after [n] iterations, or after the last one if the loop ends
    earlier. *)
Fixpoint after (n : nat) (s : crawl_state) : crawl_state :=
  match n with
  | O => s
  | S k => if loop_cond s then after k (loop_body s) else s
  end.

(** Lines 122 to 124 *)
Definition initial_state (files0 : gmap string artifact) : crawl_state :=
  CrawlState ∅ [(base_url, 0)] ∅ files0 O [].

Definition map_path : string :=
  path_join TOPICAL_MAPS_DIR (site_domain ++ ".json").

(** Lines 164 to 172.  [None] when writing the topical map raises. *)
Definition finish (s : crawl_state) : crawl_state * option site_result :=
  if negb (disk_ok (clock s) TOPICAL_MAPS_DIR) then (s, None)
  else if negb (disk_ok (clock s) map_path) then (s, None)
  else (write_file map_path (MapJson (topical_map s)) s,
        Some (SiteResult site_domain (Z.of_nat (size (visited s))))).

(** [crawl_site], line 117: the outer [None] is running out of fuel. *)
Definition crawl_site (fuel : nat) (files0 : gmap string artifact)
    : option (crawl_state * option site_result) :=
  match crawl_loop fuel (initial_state files0) with
  | Some s => Some (finish s)
  | None => None
  end.

End Scraper.

(** ** Reading the log *)

(** The depths of the entries taken from the queue, in order. *)
Definition dequeued_depths (l : list event) : list Z :=
  flat_map (fun e => match e with Dequeued _ d => [d] | _ => [] end) l.

(** The URLs taken from the queue, in order. *)
Definition dequeued_urls (l : list event) : list string :=
  flat_map (fun e => match e with Dequeued u _ => [u] | _ => [] end) l.



(** The events of one loop iteration: the entry is skipped, its page fails
    with a status or with an exception, or its page is scraped. *)
Inductive iteration : list event -> Prop :=
| iteration_skip url depth :
    iteration [Dequeued url depth]
| iteration_status url depth status :
    status ≠ 200 ->
    iteration [Dequeued url depth; Fetched url; FailedStatus url status]
| iteration_error url depth :
    iteration [Dequeued url depth; Fetched url; Errored url]
| iteration_scrape url depth links seconds :
    iteration ([Dequeued url depth; Fetched url]
               ++ List.map (fun l => Enqueued l (depth + 1) url depth) links
               ++ [Scraped url; Slept seconds]).

(** The claim of the link filter in the words of the specification, for
    comparison with [is_valid_link]: scheme, host and blocked fragments are
    read off an absolute URL of the form [scheme://host/...]. *)
Module SpecWords.

Fixpoint before_colon (url : string) : string :=
  match url with
  | EmptyString => EmptyString
  | String c rest =>
      if Ascii.eqb c ":" then EmptyString else String c (before_colon rest)
  end.

Fixpoint after_slashes (url : string) : string :=
  match url with
  | EmptyString => EmptyString
  | String _ rest =>
      if String.prefix "://" url
      then match rest with
           | String _ (String _ tail) => tail
           | _ => EmptyString
           end
      else after_slashes rest
  end.

Fixpoint until_delimiter (s : string) : string :=
  match s with
  | EmptyString => EmptyString
  | String c rest =>
      if PyStr.contains (String c EmptyString) "/?#" then EmptyString
      else String c (until_delimiter rest)
  end.

Definition scheme_of (url : string) : string := before_colon url.
Definition host_of (url : string) : string :=
  until_delimiter (after_slashes url).

Definition accepts (link domain : string) : bool :=
  (String.eqb (scheme_of link) "http" || String.eqb (scheme_of link) "https")
  && PyStr.contains domain (host_of link)
  && negb (existsb (fun x => PyStr.contains x link) blocked_fragments).

End SpecWords.

(** ** Small sites to run the crawler on *)

Module Demo.

Record page : Type := Page {
  page_url : string;
  page_title : string;
  page_links : list string
}.

Definition anchor (href : string) : node :=
  Tag "a" {["href" := href]} [NavigableString "go"].

Definition document (top : list node) : node := Tag "[document]" ∅ top.

(** The tree of a page with a title and one navigation bar. *)
Definition tree_of (p : page) : node :=
  document
    [Tag "html" ∅
       [Tag "head" ∅ [Tag "title" ∅ [NavigableString (page_title p)]];
        Tag "body" ∅ [Tag "nav" ∅ (List.map anchor (page_links p))]]].

(** Its markup. *)
Definition markup_of (p : page) : string :=
  "<title>" ++ page_title p ++ "</title><nav>"
  ++ String.concat ""
       (List.map (fun h => "<a href='" ++ h ++ "'>go</a>") (page_links p))
  ++ "</nav>".

(** A page whose title element is empty. *)
Definition untitled_markup : string :=
  "<html><head><title></title></head><body><h1>Hello</h1></body></html>".

Definition untitled_tree : node :=
  document
    [Tag "html" ∅
       [Tag "head" ∅ [Tag "title" ∅ []];
        Tag "body" ∅ [Tag "h1" ∅ [NavigableString "Hello"]]]].

(** The parser, as a table over the pages of a site. *)
Definition lxml (site : list page) (html : string) : node :=
  if String.eqb html untitled_markup then untitled_tree
  else match List.find (fun p => String.eqb (markup_of p) html) site with
       | Some p => tree_of p
       | None => document []
       end.

(** The server: the pages of the site answer 200, anything else 500. *)
Definition http_get (site : list page) (_ : nat) (url : string)
    : option (Z * string) :=
  match List.find (fun p => String.eqb (page_url p) url) site with
  | Some p => Some (200, markup_of p)
  | None => Some (500, "")
  end.

(** [urljoin] leaves an absolute reference as it is. *)
Definition urljoin (_ href : string) : option string := Some href.

Definition netloc (url : string) : string := SpecWords.host_of url.

Definition disk_ok (_ : nat) (_ : string) : bool := true.

Definition random_unit (_ : nat) : Q := 1 # 2.

Definition home : string := "https://example.com/".
Definition page_a : string := "https://example.com/a".
Definition page_b : string := "https://example.com/b".
Definition page_c : string := "https://example.com/c".
Definition page_a1 : string := "https://example.com/a/1".
Definition page_b1 : string := "https://example.com/b/1".

(** The home page links to [a] and [b]; [a] is not served; [b] links to
    [c], which links back to [a]. *)
Definition chain_site : list page :=
  [Page home "Home" [page_a; page_b];
   Page page_b "B" [page_c];
   Page page_c "C" [page_a]].

(** The home page has the children [a] and [b], each with one child. *)
Definition tree_site : list page :=
  [Page home "Home" [page_a; page_b];
   Page page_a "A" [page_a1];
   Page page_b "B" [page_b1];
   Page page_a1 "A1" [];
   Page page_b1 "B1" []].

(** A page whose navigation bar points to another host that carries the
    domain in its path. *)
Definition foreign_link : string := "https://other.org/example.com".
Definition partners : page :=
  Page "https://example.com/partners" "Partners" [foreign_link].

(** A crawl of [site] from [home]. *)
Definition crawl (site : list page) (max_pages max_depth : Z) (fuel : nat)
    : option crawl_state :=
  crawl_loop (lxml site) urljoin netloc elements (http_get site) disk_ok
             random_unit home max_pages max_depth fuel
             (initial_state home ∅).

End Demo.

(** ** The rest of the script: the site list and the article splitter *)

(** [str.lower] on one character with a code point below 256: the ASCII
    capitals and the Latin-1 capitals move up by 32. *)
Definition lower_char (c : ascii) : ascii :=
  let n := nat_of_ascii c in
  if ((65 <=? n) && (n <=? 90) || (192 <=? n) && (n <=? 214)
      || (216 <=? n) && (n <=? 222))%nat
  then ascii_of_nat (n + 32)
  else c.

(** [s.lower()] *)
Fixpoint py_lower (s : string) : string :=
  match s with
  | EmptyString => EmptyString
  | String c rest => String (lower_char c) (py_lower rest)
  end.

(** [hay.find(needle)]: the index of the first occurrence, [None] for -1. *)
Fixpoint py_find (needle hay : string) : option nat :=
  if String.prefix needle hay then Some O
  else match hay with
       | EmptyString => None
       | String _ rest =>
           match py_find needle rest with
           | Some i => Some (S i)
           | None => None
           end
       end.

(** [s[n:]] *)
Fixpoint drop_chars (n : nat) (s : string) : string :=
  match n, s with
  | S k, String _ rest => drop_chars k rest
  | _, _ => s
  end.

(** [s[a:b]] for indices that are not negative *)
Definition py_slice (a b : nat) (s : string) : string :=
  PyStr.slice_to (b - a) (drop_chars a s).

(** Truthiness of a [str]. *)
Definition nonempty (s : string) : bool :=
  match s with EmptyString => false | _ => true end.

(** One dictionary of the list [split_text_by_headings] returns. *)
Record text_section : Type := TextSection {
  heading : string;
  content : string
}.

(** [sections[-1]['content'] = c] *)
Fixpoint set_last_content (c : string) (sections : list text_section)
    : list text_section :=
  match sections with
  | [] => []
  | [x] => [TextSection (heading x) c]
  | x :: rest => x :: set_last_content c rest
  end.

(** The body of the loop of [split_text_by_headings], lines 309 to 317, on
    the pair of [sections] and [last_index]. *)
Definition split_step (text lower_text : string)
    (st : list text_section * nat) (h : string) : list text_section * nat :=
  let h_lower := py_lower h in
  match py_find h_lower lower_text with
  | Some index =>
      if (st.2 <? index)%nat
      then
        let c := PyStr.strip (py_slice st.2 index text) in
        let sections :=
          if negb (bool_decide (st.1 = [])) && nonempty c
          then set_last_content c st.1
          else st.1 in
        ((sections ++ [TextSection h ""])%list,
         (index + String.length h_lower)%nat)
      else st
  | None => st
  end.

(** [split_text_by_headings], line 304 *)
Definition split_text_by_headings (text : string) (headings : list string)
    : list text_section :=
  let st := fold_left (split_step text (py_lower text)) headings ([], O) in
  match st.1 with
  | [] => [TextSection "Body" (PyStr.strip text)]
  | _ =>
      let remainder := PyStr.strip (drop_chars st.2 text) in
      if nonempty remainder then set_last_content remainder st.1 else st.1
  end.

(** How the input loop of [main] ends: with the list of sites at a line
    that reads [done], with the [EOFError] of [input()] when the lines run
    out, or with the [ValueError] that [urlparse] raises inside
    [clean_url] on the given line. *)
Inductive input_outcome :=
| Sites (competitor_sites : list string)
| InputEnded
| UrlRejected (line : string).

Section SiteList.

Variable urlparse : string -> option (string * string).
  (* [urlparse(url)]: its [scheme] and [netloc]; [None] when it raises
     [ValueError], as it does on a host with an unmatched square bracket *)

(** [clean_url], line 108; [None] when one of its two calls of [urlparse]
    raises. *)
Definition clean_url (url : string) : option string :=
  match urlparse url with
  | None => None
  | Some parsed =>
      if nonempty parsed.1
      then Some (parsed.1 ++ "://" ++ parsed.2 ++ "/")
      else
        match urlparse ("https://" ++ url) with
        | None => None
        | Some parsed => Some (parsed.1 ++ "://" ++ parsed.2 ++ "/")
        end
  end.

(** The test that ends the input loop of [main], line 210. *)
Definition is_done (line : string) : bool :=
  String.eqb (py_lower (PyStr.strip line)) "done".

(** The input loop of [main], lines 208 to 214, over the lines that
    [input()] will return. *)
Fixpoint read_sites (lines : list string) (competitor_sites : list string)
    : input_outcome :=
  match lines with
  | [] => InputEnded
  | line :: rest =>
      if is_done line then Sites competitor_sites
      else
        match clean_url (PyStr.strip line) with
        | None => UrlRejected line
        | Some cleaned =>
            read_sites rest
              (if bool_decide (cleaned ∈ competitor_sites)
               then competitor_sites
               else (competitor_sites ++ [cleaned])%list)
        end
  end.

End SiteList.

(** ** More readings of the log *)

(** The URLs that were requested, in order. *)
Definition fetched_urls (l : list event) : list string :=
  flat_map (fun e => match e with Fetched u => [u] | _ => [] end) l.

(** The URLs that were put into the visited set, in order. *)
Definition scraped_urls (l : list event) : list string :=
  flat_map (fun e => match e with Scraped u => [u] | _ => [] end) l.

(** The pauses that were taken, in order. *)
Definition pauses (l : list event) : list Q :=
  flat_map (fun e => match e with Slept d => [d] | _ => [] end) l.

(** A string is empty or begins with a character that is not white space. *)
Definition left_trimmed (s : string) : Prop :=
  match s with
  | EmptyString => True
  | String c _ => PyStr.isspace c = false
  end.

(** A tiny [urlparse] for URLs of the form [scheme://host/...]; like the
    library it raises when the host has one square bracket without the
    other. *)
Module DemoUrl.

Definition url_scheme (url : string) : string :=
  if PyStr.contains "://" url then SpecWords.scheme_of url else "".

Definition netloc (url : string) : string :=
  if PyStr.contains "://" url then SpecWords.host_of url else "".

Definition urlparse (url : string) : option (string * string) :=
  if xorb (PyStr.contains "[" (netloc url)) (PyStr.contains "]" (netloc url))
  then None
  else Some (url_scheme url, netloc url).

End DemoUrl.

(** * Properties *)

Arguments html_path : simpl never.
Arguments json_path : simpl never.
Arguments path_join : simpl never.
Arguments filename_base : simpl never.
Arguments site_domain : simpl never.
Arguments map_path : simpl never.
Arguments extract_info : simpl never.
Arguments get_nav_links : simpl never.
Arguments uniform : simpl never.
Arguments RAW_PAGES_DIR : simpl never.
Arguments TOPICAL_MAPS_DIR : simpl never.

(** ** Strings *)

Lemma prefix_app (p t : string) : String.prefix p (p ++ t) = true.
Proof.
  induction p as [|c p IH]; simpl.
  - by destruct t.
  - destruct (ascii_dec c c) as [_|Hne]; [exact IH | by destruct Hne].
Qed.

Lemma prefix_split (p s : string) :
  String.prefix p s = true -> exists t, s = p ++ t.
Proof.
  revert s; induction p as [|c p IH]; intros s H.
  - by exists s.
  - destruct s as [|c' s]; simpl in H; [done|].
    destruct (ascii_dec c c') as [->|]; [|done].
    destruct (IH s H) as [t ->]. by exists t.
Qed.

(** [needle in hay] holds exactly when [hay] has [needle] somewhere inside. *)
Lemma contains_spec (needle hay : string) :
  PyStr.contains needle hay = true <->
  exists before rest, hay = before ++ needle ++ rest.
Proof.
  split.
  - induction hay as [|c hay IH]; cbn [PyStr.contains]; intros H.
    + apply orb_true_iff in H as [H|H]; [|done].
      apply prefix_split in H as [t ->]. by exists "", t.
    + apply orb_true_iff in H as [H|H].
      * apply prefix_split in H as [t ->]. by exists "", t.
      * destruct (IH H) as (b & r & ->). by exists (String c b), r.
  - intros (b & r & ->). induction b as [|c b IH].
    + change ("" ++ needle ++ r) with (needle ++ r).
      pose proof (prefix_app needle r) as Hp.
      destruct (needle ++ r); cbn [PyStr.contains]; by rewrite Hp.
    + change (String c b ++ needle ++ r) with (String c (b ++ needle ++ r)).
      cbn [PyStr.contains]. rewrite IH. apply orb_true_r.
Qed.

Lemma slice_to_length (n : nat) (s : string) :
  String.length (PyStr.slice_to n s) = Nat.min n (String.length s).
Proof.
  revert s; induction n as [|n IH]; intros [|c s]; simpl; try done.
  by rewrite IH.
Qed.

Lemma replace_from_skip (old new p t : string) :
  PyStr.replace_from old new (String.length p) (p ++ t)
  = PyStr.replace_from old new O t.
Proof. induction p as [|c p IH]; simpl; [by destruct t | exact IH]. Qed.

(** Removing a prefix that does not occur again in what follows. *)
Lemma replace_prefix_slash (c : ascii) (old : string) :
  c ≠ "/"%char ->
  PyStr.replace (String c old ++ "/") (String c old) "" = "/".
Proof.
  intros Hc. unfold PyStr.replace.
  change (String c old ++ "/") with (String c (old ++ "/")).
  cbn [PyStr.replace_from].
  change (String c (old ++ "/")) with (String c old ++ "/").
  rewrite prefix_app. cbn [String.length Nat.pred].
  rewrite replace_from_skip. simpl.
  destruct (ascii_dec c "/") as [->|]; [done|]. done.
Qed.

Lemma replace_absent_slash (c : ascii) (old : string) :
  c ≠ "/"%char -> PyStr.replace "/" (String c old) "" = "/".
Proof.
  intros Hc. simpl. destruct (ascii_dec c "/") as [->|]; done.
Qed.

(** ** Artifact names *)

(** C8.  The name under which the normalized seed URL [scheme://host/] is
    saved is the empty string, not [home]: what is left of the URL is ["/"],
    which is not empty, so the placeholder is not taken, and [safe_filename]
    strips the slash.  A host with [www.] keeps scheme and host in its
    name. *)
Theorem seed_filename_base_empty :
  (forall d : string, filename_base d ("https://" ++ d ++ "/") = "")
  /\ filename_base "example.com" "http://example.com/" = ""
  /\ filename_base "example.com" "https://www.example.com/"
     = "https__www.example.com"
  /\ filename_base "example.com" "https://example.com" = "home".
Proof.
  split; [|by vm_compute].
  intros d. unfold filename_base.
  assert (E : "https://" ++ d ++ "/" = String "h" ("ttps://" ++ d) ++ "/")
    by reflexivity.
  rewrite E.
  change ("https://" ++ d) with (String "h" ("ttps://" ++ d)).
  rewrite replace_prefix_slash by done.
  change ("http://" ++ d) with (String "h" ("ttp://" ++ d)).
  rewrite replace_absent_slash by done.
  reflexivity.
Qed.

(** C10.  [filename_base] is not injective: a slash and an underscore give
    the same name, and so do URLs that differ in [?] and [=] only; the
    second page saved under such a name replaces both files of the first. *)
Theorem filename_base_collision :
  let d := "example.com" in
  let u1 := "https://example.com/a/b" in
  let u2 := "https://example.com/a_b" in
  let v1 := "https://example.com/list?page=1" in
  let v2 := "https://example.com/listpage1" in
  u1 ≠ u2 /\ filename_base d u1 = filename_base d u2
  /\ v1 ≠ v2 /\ filename_base d v1 = filename_base d v2
  /\ forall (s : crawl_state) (html1 html2 : string) (info1 info2 : page_info),
       let s1 := (save_page Demo.disk_ok d u1 html1 info1 s).1 in
       let r := save_page Demo.disk_ok d u2 html2 info2 s1 in
       r.2 = true
       /\ files r.1 !! html_path d u1 = Some (RawHtml html2)
       /\ files r.1 !! json_path d u1 = Some (PageJson info2).
Proof.
  cbv zeta. repeat split; try done.
  - unfold save_page, Demo.disk_ok; simpl.
    assert (E : html_path "example.com" "https://example.com/a/b"
                = html_path "example.com" "https://example.com/a_b")
      by (by vm_compute).
    rewrite E. rewrite lookup_insert_ne by (by vm_compute).
    apply lookup_insert_eq.
  - unfold save_page, Demo.disk_ok; simpl.
    assert (E : json_path "example.com" "https://example.com/a/b"
                = json_path "example.com" "https://example.com/a_b")
      by (by vm_compute).
    rewrite E. apply lookup_insert_eq.
Qed.

(** ** The page parser *)

(** C7.  On a document whose title element is empty, [soup.title] is a tag,
    its [.string] is [None], and [extract_info] raises instead of
    returning a record. *)
Theorem extract_info_empty_title_raises :
  Soup.find "title" (Demo.lxml [] Demo.untitled_markup)
  = Some (Tag "title" ∅ [])
  /\ Soup.string_of (Tag "title" ∅ []) = None
  /\ extract_info (Demo.lxml []) Demo.untitled_markup = None.
Proof. by vm_compute. Qed.

(** What [extract_info] returns when it returns. *)
Lemma extract_info_fields (lxml : string -> node) (html : string)
    (info : page_info) :
  extract_info lxml html = Some info ->
  let soup := lxml html in
  text_snippet info = PyStr.slice_to 500 (Soup.get_text " " true soup)
  /\ (String.length (text_snippet info) <= 500)%nat
  /\ ((500 <= String.length (Soup.get_text " " true soup))%nat ->
      String.length (text_snippet info) = 500%nat)
  /\ h2s info
     = take 5 (List.map (Soup.get_text "" true) (Soup.find_all ["h2"] soup))
  /\ (length (h2s info) <= 5)%nat
  /\ (Soup.find "title" soup = None -> title info = "")
  /\ (Soup.find "h1" soup = None -> h1 info = "").
Proof.
  intros H soup. unfold extract_info in H. fold soup in H.
  remember (PyStr.slice_to 500 (Soup.get_text " " true soup)) as snip
    eqn:Esnip.
  assert (Hlen : String.length snip
                 = Nat.min 500 (String.length (Soup.get_text " " true soup)))
    by (subst snip; apply slice_to_length).
  remember (take 5 (List.map (Soup.get_text "" true)
                             (Soup.find_all ["h2"] soup))) as hs eqn:Ehs.
  assert (Hhs : (length hs <= 5)%nat)
    by (subst hs; rewrite length_take; lia).
  destruct (Soup.find "title" soup) as [t|] eqn:Et.
  - destruct (Soup.string_of t) as [ts|]; [|done].
    injection H as <-. cbn [text_snippet h2s title h1].
    repeat split; try done; try lia.
    intros ->. done.
  - injection H as <-. cbn [text_snippet h2s title h1].
    repeat split; try done; try lia.
    intros ->. done.
Qed.

(** [extract_info] returns whenever the title is absent or holds one
    string. *)
Lemma extract_info_returns (lxml : string -> node) (html : string) :
  match Soup.find "title" (lxml html) with
  | Some t => is_Some (Soup.string_of t)
  | None => True
  end ->
  is_Some (extract_info lxml html).
Proof.
  unfold extract_info.
  destruct (Soup.find "title" (lxml html)) as [t|]; [|by eexists].
  intros [ts ->]. by eexists.
Qed.

(** ** The link filter *)

Lemma is_valid_link_spec (link d : string) :
  is_valid_link link d = true <->
  PyStr.startswith link "http" = true
  /\ PyStr.contains d link = true
  /\ Forall (fun x => PyStr.contains x link = false) blocked_fragments.
Proof.
  unfold is_valid_link.
  destruct (PyStr.startswith link "http"); cbn [negb];
    [|split; [done | by intros [? _]]].
  destruct (PyStr.contains d link); cbn [negb];
    [|split; [done | by intros (_ & ? & _)]].
  destruct (existsb _ blocked_fragments) eqn:E.
  - split; [done|]. intros (_ & _ & HF). exfalso.
    apply existsb_exists in E as (x & Hin & Hx).
    rewrite Forall_forall in HF.
    apply list_elem_of_In in Hin. rewrite (HF x Hin) in Hx. done.
  - split; [|done]. intros _. repeat split.
    apply Forall_forall. intros x Hin. apply list_elem_of_In in Hin.
    destruct (PyStr.contains x link) eqn:Ex; [|done].
    assert (existsb (fun x => PyStr.contains x link) blocked_fragments = true)
      as E' by (apply existsb_exists; eauto).
    congruence.
Qed.

Section LinkExtractor.

Variable lxml : string -> node.
Variable urljoin : string -> string -> option string.
Variable list_of_set : gset string -> list string.

Lemma collect_links_spec (base d : string) (anchors : list node)
    (acc links : gset string) :
  collect_links urljoin base d anchors acc = Some links ->
  forall l, l ∈ links <->
    l ∈ acc
    \/ (exists a, a ∈ anchors /\ urljoin base (Soup.attr "href" a) = Some l)
       /\ is_valid_link l d = true.
Proof.
  revert acc; induction anchors as [|a anchors IH]; intros acc H l.
  - injection H as <-. split; [by left|].
    intros [?|[(a & Ha & _) _]]; [done | by apply elem_of_nil in Ha].
  - cbn [collect_links] in H.
    destruct (urljoin base (Soup.attr "href" a)) as [u|] eqn:Eu; [|done].
    rewrite (IH _ H l). destruct (is_valid_link u d) eqn:Ev.
    + rewrite elem_of_union, elem_of_singleton. split.
      * intros [[?| ->]|[(a' & Ha' & E') Hv]]; [by left | |].
        -- right. split; [|done]. exists a. split; [left | done].
        -- right. split; [|done]. exists a'. split; [by right | done].
      * intros [?|[(a' & Ha' & E') Hv]]; [by left; left|].
        apply elem_of_cons in Ha' as [->|Ha'].
        -- left; right. congruence.
        -- right. split; [|done]. by exists a'.
    + split.
      * intros [?|[(a' & Ha' & E') Hv]]; [by left|].
        right. split; [|done]. exists a'. split; [by right | done].
      * intros [?|[(a' & Ha' & E') Hv]]; [by left|].
        apply elem_of_cons in Ha' as [->|Ha'].
        -- congruence.
        -- right. split; [|done]. by exists a'.
Qed.

Lemma collect_links_total (base d : string) (anchors : list node)
    (acc : gset string) :
  (forall a, a ∈ anchors -> is_Some (urljoin base (Soup.attr "href" a))) ->
  is_Some (collect_links urljoin base d anchors acc).
Proof.
  revert acc; induction anchors as [|a anchors IH]; intros acc H.
  - by eexists.
  - cbn [collect_links].
    destruct (H a) as [u ->]; [left|].
    apply IH. intros a' Ha'. apply H. by right.
Qed.

Lemma collect_links_raises (base d : string) (anchors : list node)
    (acc : gset string) :
  collect_links urljoin base d anchors acc = None <->
  exists a, a ∈ anchors /\ urljoin base (Soup.attr "href" a) = None.
Proof.
  revert acc; induction anchors as [|a anchors IH]; intros acc;
    cbn [collect_links].
  - split; [done|]. intros (a & Ha & _). by apply elem_of_nil in Ha.
  - destruct (urljoin base (Soup.attr "href" a)) as [u|] eqn:Eu.
    + rewrite IH. split.
      * intros (a' & Ha' & E'). exists a'. split; [by right | done].
      * intros (a' & Ha' & E'). apply elem_of_cons in Ha' as [->|Ha'].
        -- congruence.
        -- by exists a'.
    + split; [|done]. intros _. exists a. split; [left | done].
Qed.

(** C5, amended.  On every document the link extractor either raises,
    which it does exactly when [urljoin] raises on one of the anchors of
    the navigation regions, or returns exactly the resolved anchors of
    those regions whose text starts with [http], contains the domain
    anywhere in the URL, and contains none of the blocked fragments. *)
Theorem get_nav_links_accepts (html base d : string) :
  (forall (X : gset string) (x : string), x ∈ list_of_set X <-> x ∈ X) ->
  (get_nav_links lxml urljoin list_of_set html base d = None <->
   exists a, a ∈ nav_anchors (lxml html)
             /\ urljoin base (Soup.attr "href" a) = None)
  /\ ((forall a, a ∈ nav_anchors (lxml html) ->
                 is_Some (urljoin base (Soup.attr "href" a))) ->
      exists links,
        get_nav_links lxml urljoin list_of_set html base d = Some links)
  /\ forall links,
       get_nav_links lxml urljoin list_of_set html base d = Some links ->
       forall l, l ∈ links <->
         (exists a, a ∈ nav_anchors (lxml html)
                    /\ urljoin base (Soup.attr "href" a) = Some l)
         /\ PyStr.startswith l "http" = true
         /\ PyStr.contains d l = true
         /\ Forall (fun x => PyStr.contains x l = false) blocked_fragments.
Proof.
  intros Hset. unfold get_nav_links.
  pose proof (collect_links_raises base d (nav_anchors (lxml html)) ∅)
    as Hraise.
  destruct (collect_links urljoin base d (nav_anchors (lxml html)) ∅)
    as [found|] eqn:Hl.
  - split; [|split].
    + split; [done|]. intros H. by apply Hraise in H.
    + intros _. by eexists.
    + intros links [= <-] l.
      rewrite Hset, (collect_links_spec _ _ _ _ _ Hl l).
      rewrite is_valid_link_spec. split.
      * intros [?|[? ?]]; [by apply not_elem_of_empty in H | done].
      * intros [? ?]. by right.
  - split; [|split].
    + split; [intros _; by apply Hraise | done].
    + intros Hjoin. destruct (proj1 Hraise eq_refl) as (a & Ha & E).
      destruct (Hjoin a Ha) as [? ?]. congruence.
    + by intros links.
Qed.

End LinkExtractor.

(** C5, as stated, fails: a navigation link to another host is returned
    when the domain occurs in its path. *)
Lemma nav_link_foreign_host_accepted :
  get_nav_links (Demo.lxml [Demo.partners]) Demo.urljoin elements
                (Demo.markup_of Demo.partners) Demo.home "example.com"
  = Some ["https://other.org/example.com"]
  /\ SpecWords.host_of "https://other.org/example.com" = "other.org"
  /\ PyStr.contains "example.com" "other.org" = false
  /\ SpecWords.accepts "https://other.org/example.com" "example.com" = false.
Proof. by vm_compute. Qed.

Lemma get_nav_links_accepts_witness :
  exists links,
    get_nav_links (Demo.lxml [Demo.partners]) Demo.urljoin elements
                  (Demo.markup_of Demo.partners) Demo.home "example.com"
    = Some links
    /\ forall l, l ∈ links <->
         (exists a, a ∈ nav_anchors
                          (Demo.lxml [Demo.partners]
                                     (Demo.markup_of Demo.partners))
                    /\ Demo.urljoin Demo.home (Soup.attr "href" a) = Some l)
         /\ PyStr.startswith l "http" = true
         /\ PyStr.contains "example.com" l = true
         /\ Forall (fun x => PyStr.contains x l = false) blocked_fragments.
Proof.
  destruct (get_nav_links_accepts (Demo.lxml [Demo.partners]) Demo.urljoin
              elements (Demo.markup_of Demo.partners) Demo.home
              "example.com")
    as (_ & Hreturns & Hexact).
  - intros X x. apply elem_of_elements.
  - destruct Hreturns as [links Hlinks]; [intros a _; by eexists|].
    exists links. split; [exact Hlinks | by apply Hexact].
Defined.

(** ** The crawl loop *)

Section Crawl.

Local Open Scope list_scope.

Variable lxml : string -> node.
Variable urljoin : string -> string -> option string.
Variable netloc : string -> string.
Variable list_of_set : gset string -> list string.
Variable http_get : nat -> string -> option (Z * string).
Variable disk_ok : nat -> string -> bool.
Variable random_unit : nat -> Q.
Variable base_url : string.
Variable max_pages max_depth : Z.

#[local] Abbreviation body :=
  (loop_body lxml urljoin netloc list_of_set http_get disk_ok random_unit
             base_url max_depth).
#[local] Abbreviation cond := (loop_cond max_pages).
#[local] Abbreviation loop :=
  (crawl_loop lxml urljoin netloc list_of_set http_get disk_ok random_unit
              base_url max_pages max_depth).
#[local] Abbreviation steps :=
  (after lxml urljoin netloc list_of_set http_get disk_ok random_unit
         base_url max_pages max_depth).
#[local] Abbreviation init := (initial_state base_url).
#[local] Abbreviation dom := (site_domain netloc base_url).
#[local] Abbreviation enqueued_by url depth :=
  (List.map (fun l => Enqueued l (depth + 1) url depth)).
#[local] Abbreviation entries_at depth :=
  (List.map (fun l : string => (l, depth + 1))).

(** *** What one iteration does *)

Lemma save_page_frame (d url html : string) (info : page_info)
    (s : crawl_state) :
  let r := save_page disk_ok d url html info s in
  visited r.1 = visited s /\ to_visit r.1 = to_visit s
  /\ log r.1 = log s /\ clock r.1 = clock s.
Proof.
  unfold save_page.
  destruct (disk_ok (clock s) (path_join RAW_PAGES_DIR d)); [|done].
  destruct (disk_ok (clock s) (html_path d url)); [|done].
  destruct (disk_ok (clock s) (json_path d url)); done.
Qed.

Lemma enqueue_links_spec (links : list string) (url : string) (depth : Z)
    (s : crawl_state) :
  exists new,
    let s' := enqueue_links links url depth s in
    visited s' = visited s /\ clock s' = clock s
    /\ to_visit s' = to_visit s ++ entries_at depth new
    /\ log s' = log s ++ enqueued_by url depth new.
Proof.
  revert s; induction links as [|link links IH]; intros s.
  - exists []. cbn. by rewrite !app_nil_r.
  - cbn [enqueue_links].
    destruct (bool_decide (link ∉ visited s)
              && bool_decide (link ∉ List.map fst (to_visit s))).
    + destruct (IH (emit (Enqueued link (depth + 1) url depth)
                      (set_to_visit (to_visit s ++ [(link, depth + 1)]) s)))
        as (new & Hv & Hc & Hq & Hl).
      exists (link :: new). cbn zeta in *.
      rewrite Hv, Hc, Hq, Hl. cbn. by rewrite <- !app_assoc.
    + apply IH.
Qed.

(** An iteration skips its entry, fails on it, or scrapes it. *)
Lemma loop_body_spec (s : crawl_state) (url : string) (depth : Z)
    (rest : list (string * Z)) :
  to_visit s = (url, depth) :: rest ->
  let s' := body s in
  clock s' = S (clock s)
  /\ (((url ∈ visited s) /\ visited s' = visited s /\ to_visit s' = rest
       /\ log s' = log s ++ [Dequeued url depth])
      \/ ((url ∉ visited s) /\ visited s' = visited s /\ to_visit s' = rest
          /\ exists e,
               (e = Errored url
                \/ exists status, status ≠ 200 /\ e = FailedStatus url status)
               /\ log s' = log s ++ [Dequeued url depth; Fetched url; e])
      \/ ((url ∉ visited s)
          /\ exists new,
               (new ≠ [] -> depth < max_depth)
               /\ visited s' = visited s ∪ {[url]}
               /\ to_visit s' = rest ++ entries_at depth new
               /\ log s' = log s ++ [Dequeued url depth; Fetched url]
                           ++ enqueued_by url depth new
                           ++ [Scraped url;
                               Slept (uniform (3 # 2) 5
                                        (random_unit (S (clock s))))])).
Proof.
  intros Hq. unfold loop_body. rewrite Hq. cbn [visited emit set_to_visit tick].
  destruct (bool_decide (url ∈ visited s)) eqn:Hin.
  { apply bool_decide_eq_true in Hin. split; [done|]. left. by cbn. }
  apply bool_decide_eq_false in Hin.
  unfold visit. cbn [clock emit set_to_visit tick].
  destruct (http_get (S (clock s)) url) as [[status html]|].
  2:{ split; [done|]. right; left. repeat split; try done.
      exists (Errored url). split; [by left|]. cbn. by rewrite <- !app_assoc. }
  destruct (status =? 200) eqn:Est; cbn [negb].
  2:{ split; [done|]. right; left. repeat split; try done.
      exists (FailedStatus url status). split.
      - right. exists status. split; [lia | done].
      - cbn. by rewrite <- !app_assoc. }
  destruct (extract_info lxml html) as [info|].
  2:{ split; [done|]. right; left. repeat split; try done.
      exists (Errored url). split; [by left|]. cbn. by rewrite <- !app_assoc. }
  match goal with
  | |- context [save_page ?dk ?d ?u ?h ?i ?st] =>
      pose proof (save_page_frame d u h i st) as Hsave;
      destruct (save_page dk d u h i st) as [s1 ok]
  end.
  cbn in Hsave. destruct Hsave as (Hv1 & Hq1 & Hl1 & Hc1).
  destruct ok.
  2:{ cbn. rewrite Hv1, Hq1, Hl1, Hc1. split; [done|]. right; left.
      repeat split; try done.
      exists (Errored url). split; [by left|]. by rewrite <- !app_assoc. }
  destruct (depth <? max_depth) eqn:Ed.
  - destruct (get_nav_links _ _ _ html base_url _) as [links|].
    2:{ cbn. rewrite Hv1, Hq1, Hl1, Hc1. split; [done|]. right; left.
        repeat split; try done.
        exists (Errored url). split; [by left|]. by rewrite <- !app_assoc. }
    match goal with
    | |- context [enqueue_links links url depth ?st] =>
        destruct (enqueue_links_spec links url depth st)
          as (new & Hv2 & Hc2 & Hq2 & Hl2)
    end.
    cbn zeta in *. cbn in Hv2, Hc2, Hq2, Hl2.
    unfold random_delay. cbn. rewrite Hv2, Hc2, Hq2, Hl2, Hv1, Hq1, Hl1, Hc1.
    split; [done|]. right; right. split; [done|].
    exists new. repeat split; try done; [lia|].
    by rewrite <- !app_assoc.
  - unfold random_delay. cbn. rewrite Hv1, Hq1, Hl1, Hc1.
    split; [done|]. right; right. split; [done|].
    exists []. repeat split; try done.
    + by rewrite app_nil_r.
    + by rewrite <- !app_assoc.
Qed.

Lemma loop_cond_true (s : crawl_state) :
  cond s = true ->
  (exists url depth rest, to_visit s = (url, depth) :: rest)
  /\ Z.of_nat (size (visited s)) < max_pages.
Proof.
  unfold loop_cond. intros H. apply andb_true_iff in H as [Hq Hn].
  apply Z.ltb_lt in Hn. split; [|done].
  apply negb_true_iff, bool_decide_eq_false in Hq.
  destruct (to_visit s) as [|[url depth] rest]; [done|]. by eexists _, _, _.
Qed.

Lemma loop_cond_false (s : crawl_state) :
  cond s = false ->
  to_visit s = [] \/ max_pages <= Z.of_nat (size (visited s)).
Proof.
  unfold loop_cond. intros H. apply andb_false_iff in H as [Hq|Hn].
  - left. by apply negb_false_iff, bool_decide_eq_true in Hq.
  - right. by apply Z.ltb_ge in Hn.
Qed.

(** *** Running the loop *)

Lemma after_invariant (P : crawl_state -> Prop) :
  (forall s, P s -> cond s = true -> P (body s)) ->
  forall n s, P s -> P (steps n s).
Proof.
  intros Hstep n; induction n as [|n IH]; intros s Hs; cbn [after]; [done|].
  destruct (cond s) eqn:Hc; [|done]. by apply IH, Hstep.
Qed.

Lemma crawl_loop_after (fuel : nat) (s final : crawl_state) :
  loop fuel s = Some final ->
  cond final = false /\ exists n, final = steps n s.
Proof.
  revert s; induction fuel as [|fuel IH]; intros s; cbn [crawl_loop];
    destruct (cond s) eqn:Hc; intros H; try done.
  - injection H as <-. split; [done|]. by exists O.
  - destruct (IH _ H) as (Hf & n & ->). split; [done|].
    exists (S n). cbn [after]. by rewrite Hc.
  - injection H as <-. split; [done|]. by exists O.
Qed.

Lemma crawl_loop_more_fuel (fuel extra : nat) (s final : crawl_state) :
  loop fuel s = Some final -> loop (fuel + extra) s = Some final.
Proof.
  revert s; induction fuel as [|fuel IH]; intros s; cbn [crawl_loop];
    destruct (cond s) eqn:Hc; intros H; try done.
  - destruct extra; cbn [crawl_loop Nat.add]; by rewrite Hc.
  - cbn [Nat.add crawl_loop]. rewrite Hc. by apply IH.
  - cbn [Nat.add crawl_loop]. by rewrite Hc.
Qed.

(** The result of the loop does not depend on the fuel. *)
Lemma crawl_loop_deterministic (fuel1 fuel2 : nat) (s f1 f2 : crawl_state) :
  loop fuel1 s = Some f1 -> loop fuel2 s = Some f2 -> f1 = f2.
Proof.
  intros H1 H2.
  apply (crawl_loop_more_fuel _ fuel2) in H1.
  apply (crawl_loop_more_fuel _ fuel1) in H2.
  rewrite (Nat.add_comm fuel2 fuel1) in H2. congruence.
Qed.

(** A scrape adds a page that was not yet visited. *)
Lemma size_visited_add (s : crawl_state) (url : string) :
  url ∉ visited s -> size (visited s ∪ {[url]}) = S (size (visited s)).
Proof.
  intros Hn. rewrite size_union by set_solver.
  rewrite size_singleton. lia.
Qed.

(** The loop ends: a scrape uses up one page of the budget, and every other
    iteration shortens the queue. *)
Lemma crawl_loop_terminates_from (budget queue : nat) (s : crawl_state) :
  (Z.to_nat (max_pages - Z.of_nat (size (visited s))) <= budget)%nat ->
  (length (to_visit s) <= queue)%nat ->
  exists fuel final, loop fuel s = Some final.
Proof.
  revert queue s; induction budget as [|budget IHb];
    intros queue; induction queue as [|queue IHq]; intros s Hb Hq;
    destruct (cond s) eqn:Hc;
    try (by exists O, s; cbn [crawl_loop]; rewrite Hc).
  all: destruct (loop_cond_true _ Hc) as [(url & depth & rest & Hs) Hlt].
  all: try (rewrite Hs in Hq; cbn in Hq; lia).
  all: try lia.
  destruct (loop_body_spec s url depth rest Hs) as [_ Hcases].
  cbn zeta in Hcases.
  assert (exists fuel final, loop fuel (body s) = Some final)
    as (fuel & final & Hrun).
  { destruct Hcases as [(_ & Hv & Hr & _)|[(_ & Hv & Hr & _)|(Hn & new & _ & Hv & Hr & _)]].
    - apply IHq; [rewrite Hv; lia|]. rewrite Hr. rewrite Hs in Hq. cbn in Hq. lia.
    - apply IHq; [rewrite Hv; lia|]. rewrite Hr. rewrite Hs in Hq. cbn in Hq. lia.
    - apply (IHb (length (to_visit (body s)))); [|lia].
      rewrite Hv, size_visited_add by done. lia. }
  exists (S fuel), final. cbn [crawl_loop]. by rewrite Hc.
Qed.

Lemma crawl_loop_terminates (s : crawl_state) :
  exists fuel final, loop fuel s = Some final.
Proof. by eapply crawl_loop_terminates_from. Qed.

(** *** The page budget *)






(** *** Failures of one page *)

Lemma save_page_fails (d url html p : string) (info : page_info)
    (s : crawl_state) :
  p ∈ [path_join RAW_PAGES_DIR d; html_path d url; json_path d url] ->
  disk_ok (clock s) p = false ->
  (save_page disk_ok d url html info s).2 = false.
Proof.
  intros Hp Hfail. unfold save_page.
  destruct (disk_ok (clock s) (path_join RAW_PAGES_DIR d)) eqn:E1; [|done].
  destruct (disk_ok (clock s) (html_path d url)) eqn:E2; [|done].
  destruct (disk_ok (clock s) (json_path d url)) eqn:E3; [|done].
  exfalso. rewrite !elem_of_cons in Hp.
  destruct Hp as [->|[->|[->|Hp]]]; try congruence.
  by apply elem_of_nil in Hp.
Qed.

(** C6.  A page that fails, by a transport error, a status other than 200,
    an exception of the parser, a failed write or an exception of the link
    extractor, only costs its own queue entry: the rest of the queue and the visited set are as before and the
    loop goes on from there; the loop always ends, and it ends only with an
    empty queue or a used-up page budget. *)
Theorem page_failure_is_local (s : crawl_state) (url : string) (depth : Z)
    (rest : list (string * Z)) :
  to_visit s = (url, depth) :: rest ->
  Z.of_nat (size (visited s)) < max_pages ->
  url ∉ visited s ->
  let s' := body s in
  let now := S (clock s) in
  let kept :=
    to_visit s' = rest /\ visited s' = visited s
    /\ exists e, log s' = log s ++ [Dequeued url depth; Fetched url; e] in
  (forall fuel, loop (S fuel) s = loop fuel s')
  /\ (http_get now url = None -> kept)
  /\ (forall status html,
        http_get now url = Some (status, html) -> status ≠ 200 -> kept)
  /\ (forall html,
        http_get now url = Some (200, html) ->
        extract_info lxml html = None -> kept)
  /\ (forall html info p,
        http_get now url = Some (200, html) ->
        extract_info lxml html = Some info ->
        p ∈ [path_join RAW_PAGES_DIR dom; html_path dom url;
             json_path dom url] ->
        disk_ok now p = false -> kept)
  /\ (forall html info,
        http_get now url = Some (200, html) ->
        extract_info lxml html = Some info ->
        depth < max_depth ->
        get_nav_links lxml urljoin list_of_set html base_url dom = None ->
        kept)
  /\ (forall fuel final,
        loop fuel s = Some final ->
        to_visit final = [] \/ max_pages <= Z.of_nat (size (visited final)))
  /\ (exists fuel final, loop fuel s = Some final).
Proof.
  intros Hq Hlt Hnew s' now kept.
  assert (Hc : cond s = true).
  { unfold loop_cond. rewrite Hq. apply andb_true_iff. split; [done|].
    by apply Z.ltb_lt. }
  assert (Hbody : s' = visit lxml urljoin netloc list_of_set http_get disk_ok
                         random_unit base_url max_depth url depth
                         (emit (Dequeued url depth)
                            (set_to_visit rest (tick s)))).
  { unfold s', loop_body. rewrite Hq. cbn [visited emit set_to_visit tick].
    by rewrite bool_decide_eq_false_2. }
  refine (conj _ (conj _ (conj _ (conj _ (conj _ (conj _ (conj _ _))))))).
  - intros fuel. cbn [crawl_loop]. by rewrite Hc.
  - intros Hget. unfold kept. rewrite Hbody. unfold visit.
    cbn [clock emit set_to_visit tick]. fold now. rewrite Hget. cbn.
    repeat split; try done. eexists. by rewrite <- !app_assoc.
  - intros status html Hget Hst. unfold kept. rewrite Hbody. unfold visit.
    cbn [clock emit set_to_visit tick]. fold now. rewrite Hget.
    destruct (status =? 200) eqn:E; [lia|]. cbn.
    repeat split; try done. eexists. by rewrite <- !app_assoc.
  - intros html Hget Hparse. unfold kept. rewrite Hbody. unfold visit.
    cbn [clock emit set_to_visit tick]. fold now. rewrite Hget, Hparse. cbn.
    repeat split; try done. eexists. by rewrite <- !app_assoc.
  - intros html info p Hget Hparse Hp Hdisk. unfold kept. rewrite Hbody.
    unfold visit. cbn [clock emit set_to_visit tick]. fold now.
    rewrite Hget, Hparse. cbn [Z.eqb Pos.eqb negb].
    match goal with
    | |- context [save_page ?dk ?d ?u ?h ?i ?st] =>
        pose proof (save_page_frame d u h i st) as Hframe;
        pose proof (save_page_fails d u h p i st Hp Hdisk) as Hfail;
        destruct (save_page dk d u h i st) as [s1 ok]
    end.
    cbn in Hframe, Hfail. destruct Hframe as (Hv1 & Hq1 & Hl1 & Hc1).
    subst ok. cbn. rewrite Hv1, Hq1, Hl1.
    repeat split; try done. eexists. by rewrite <- !app_assoc.
  - intros html info Hget Hparse Hdepth Hnav. unfold kept. rewrite Hbody.
    unfold visit. cbn [clock emit set_to_visit tick]. fold now.
    rewrite Hget, Hparse. cbn [Z.eqb Pos.eqb negb].
    apply Z.ltb_lt in Hdepth. rewrite Hdepth, Hnav.
    match goal with
    | |- context [save_page ?dk ?d ?u ?h ?i ?st] =>
        pose proof (save_page_frame d u h i st) as Hframe;
        destruct (save_page dk d u h i st) as [s1 ok]
    end.
    cbn in Hframe. destruct Hframe as (Hv1 & Hq1 & Hl1 & Hc1).
    destruct ok; cbn; rewrite Hv1, Hq1, Hl1;
      (repeat split; try done; eexists; by rewrite <- !app_assoc).
  - intros fuel final Hrun.
    apply crawl_loop_after in Hrun as [Hf _]. by apply loop_cond_false.
  - apply crawl_loop_terminates.
Qed.

(** *** What the log of an iteration holds *)

Lemma elem_of_enqueued_by (url : string) (depth : Z) (new : list string)
    (e : event) :
  e ∈ enqueued_by url depth new ->
  exists l, e = Enqueued l (depth + 1) url depth /\ l ∈ new.
Proof.
  intros H. apply list_elem_of_In, in_map_iff in H as (l & <- & Hl).
  exists l. split; [done|]. by apply list_elem_of_In.
Qed.

Lemma dequeued_depths_app (l1 l2 : list event) :
  dequeued_depths (l1 ++ l2) = dequeued_depths l1 ++ dequeued_depths l2.
Proof. apply flat_map_app. Qed.

Lemma dequeued_depths_enqueued (url : string) (depth : Z)
    (new : list string) :
  dequeued_depths (enqueued_by url depth new) = [].
Proof. by induction new. Qed.

(** *** No second request after a scrape *)







(** *** Depths *)

Lemma depth_invariant (s : crawl_state) :
  Forall (fun e => e.2 <= max_depth) (to_visit s)
  /\ (forall u d, Dequeued u d ∈ log s -> d <= max_depth)
  /\ (forall l d p pd,
        Enqueued l d p pd ∈ log s ->
        d = pd + 1 /\ pd < max_depth /\ Dequeued p pd ∈ log s) ->
  cond s = true ->
  Forall (fun e => e.2 <= max_depth) (to_visit (body s))
  /\ (forall u d, Dequeued u d ∈ log (body s) -> d <= max_depth)
  /\ (forall l d p pd,
        Enqueued l d p pd ∈ log (body s) ->
        d = pd + 1 /\ pd < max_depth /\ Dequeued p pd ∈ log (body s)).
Proof.
  intros (Hq & Hd & He) Hc.
  destruct (loop_cond_true _ Hc) as [(url & depth & rest & Hs) _].
  destruct (loop_body_spec s url depth rest Hs) as [_ Hcases].
  cbn zeta in Hcases. rewrite Hs in Hq.
  apply Forall_cons in Hq as [Hhead Hrest]. cbn in Hhead.
  destruct Hcases
    as [(_ & _ & Hr & Hl)
       |[(_ & _ & Hr & e & Hfail & Hl)|(_ & new & Hnew & _ & Hr & Hl)]];
    rewrite Hl, Hr.
  - split; [done|]. split.
    + intros u d. rewrite elem_of_app, list_elem_of_singleton.
      intros [?|[= -> ->]]; [by eapply Hd | done].
    + intros l d p pd. rewrite elem_of_app, list_elem_of_singleton.
      intros [H|?]; [|done].
      destruct (He _ _ _ _ H) as (? & ? & ?).
      repeat split; try done. apply elem_of_app. by left.
  - split; [done|]. split.
    + intros u d. rewrite elem_of_app, !elem_of_cons, elem_of_nil.
      intros [?|[[= -> ->]|[?|[Heq|[]]]]]; [by eapply Hd | done | done |].
      by destruct Hfail as [->|(? & _ & ->)].
    + intros l d p pd. rewrite elem_of_app, !elem_of_cons, elem_of_nil.
      intros [H|[?|[?|[Heq|[]]]]]; try done.
      * destruct (He _ _ _ _ H) as (? & ? & ?).
        repeat split; try done. apply elem_of_app. by left.
      * by destruct Hfail as [->|(? & _ & ->)].
  - assert (Hlt : forall l : string, l ∈ new -> depth < max_depth).
    { intros l Hl'. apply Hnew. intros ->. by apply elem_of_nil in Hl'. }
    split; [|split].
    + apply Forall_app. split; [done|].
      apply Forall_forall. intros [l d] Hin.
      apply list_elem_of_In, in_map_iff in Hin as (l' & [= <- <-] & Hl').
      apply list_elem_of_In, Hlt in Hl'. cbn. lia.
    + intros u d. rewrite !elem_of_app, !elem_of_cons, !elem_of_nil.
      intros [?|[[[= -> ->]|[?|[]]]|[H|[?|[?|[]]]]]]; try done.
      * by eapply Hd.
      * by apply elem_of_enqueued_by in H as (? & ? & _).
    + intros l d p pd. rewrite !elem_of_app, !elem_of_cons, !elem_of_nil.
      intros [H|[[?|[?|[]]]|[H|[?|[?|[]]]]]]; try done.
      * destruct (He _ _ _ _ H) as (? & ? & ?).
        repeat split; try done. by left.
      * apply elem_of_enqueued_by in H as (l' & [= -> -> -> ->] & Hl').
        repeat split; [by eapply Hlt|]. right; left. by left.
Qed.

(** C3.  With a positive [max_depth], at every point of a crawl: every
    entry was appended at the depth of its parent page plus one, by a page
    whose own depth is below [max_depth], and every entry waiting in the
    queue or taken from it has a depth of at most [max_depth]. *)
Theorem frontier_depth_bounded (files0 : gmap string artifact) (n : nat) :
  0 < max_depth ->
  let s := steps n (init files0) in
  (forall l d p pd,
     Enqueued l d p pd ∈ log s ->
     d = pd + 1 /\ pd < max_depth /\ d <= max_depth /\ Dequeued p pd ∈ log s)
  /\ Forall (fun e => e.2 <= max_depth) (to_visit s)
  /\ (forall u d, Dequeued u d ∈ log s -> d <= max_depth).
Proof.
  intros Hpos. cbn zeta.
  destruct (after_invariant _ depth_invariant n (init files0))
    as (Hq & Hd & He).
  { cbn. split; [|split].
    - apply Forall_cons. split; [cbn; lia | done].
    - intros u d H. by apply elem_of_nil in H.
    - intros l d p pd H. by apply elem_of_nil in H. }
  split; [|by split].
  intros l d p pd H. destruct (He _ _ _ _ H) as (? & ? & ?).
  repeat split; try done. lia.
Qed.

(** *** Breadth first *)

Lemma constant_depths_sorted (d : Z) (new : list string) :
  StronglySorted Z.le (List.map (fun _ : string => d) new).
Proof.
  induction new as [|l new IH]; cbn; constructor; [done|].
  apply Forall_forall. intros d' Hd'.
  apply list_elem_of_In, in_map_iff in Hd' as (? & <- & _). lia.
Qed.

Lemma bfs_invariant (s : crawl_state) :
  (exists top,
     Forall (fun d => d <= top) (dequeued_depths (log s))
     /\ StronglySorted Z.le (dequeued_depths (log s))
     /\ StronglySorted Z.le (List.map snd (to_visit s))
     /\ Forall (fun d => top <= d <= top + 1) (List.map snd (to_visit s))) ->
  cond s = true ->
  exists top,
    Forall (fun d => d <= top) (dequeued_depths (log (body s)))
    /\ StronglySorted Z.le (dequeued_depths (log (body s)))
    /\ StronglySorted Z.le (List.map snd (to_visit (body s)))
    /\ Forall (fun d => top <= d <= top + 1)
              (List.map snd (to_visit (body s))).
Proof.
  intros (top & Hle & Hsorted & Hq & Hband) Hc.
  destruct (loop_cond_true _ Hc) as [(url & depth & rest & Hs) _].
  destruct (loop_body_spec s url depth rest Hs) as [_ Hcases].
  cbn zeta in Hcases. rewrite Hs in Hq, Hband. cbn [List.map snd] in Hq, Hband.
  apply StronglySorted_cons in Hq as [Hmin Hq].
  apply Forall_cons in Hband as [Hhead Hband].
  assert (Hdeq : dequeued_depths (log (body s))
                 = dequeued_depths (log s) ++ [depth]).
  { destruct Hcases
      as [(_ & _ & _ & Hl)
         |[(_ & _ & _ & e & Hfail & Hl)|(_ & new & _ & _ & _ & Hl)]];
      rewrite Hl, !dequeued_depths_app; f_equal.
    - by destruct Hfail as [->|(? & _ & ->)].
    - by rewrite dequeued_depths_enqueued. }
  assert (Hband' : Forall (fun d => depth <= d <= depth + 1)
                          (List.map snd rest)).
  { rewrite Forall_forall in Hmin, Hband. apply Forall_forall.
    intros d Hd. specialize (Hmin d Hd). specialize (Hband d Hd). lia. }
  exists depth. rewrite Hdeq. split; [|split].
  - apply Forall_app. split.
    + eapply Forall_impl; [exact Hle|]. cbn. intros; lia.
    + by apply Forall_singleton.
  - apply StronglySorted_app. split; [|split].
    + intros d1 d2 Hd1 Hd2. apply list_elem_of_singleton in Hd2 as ->.
      rewrite Forall_forall in Hle. specialize (Hle d1 Hd1). lia.
    + done.
    + repeat constructor.
  - destruct Hcases
      as [(_ & _ & Hr & _)|[(_ & _ & Hr & _)|(_ & new & _ & _ & Hr & _)]];
      rewrite Hr; [done | done |].
    rewrite map_app, map_map. cbn [snd].
    assert (Hnew : Forall (fun d => d = depth + 1)
                          (List.map (fun _ : string => depth + 1) new)).
    { apply Forall_forall. intros d Hd.
      by apply list_elem_of_In, in_map_iff in Hd as (? & <- & _). }
    split.
    + apply StronglySorted_app. split; [|split].
      * intros d1 d2 Hd1 Hd2. rewrite Forall_forall in Hband', Hnew.
        specialize (Hband' d1 Hd1). specialize (Hnew d2 Hd2). lia.
      * done.
      * apply constant_depths_sorted.
    + apply Forall_app. split; [done|].
      eapply Forall_impl; [exact Hnew|]. cbn. intros; lia.
Qed.

Lemma dequeued_depths_sorted (files0 : gmap string artifact) (n : nat) :
  StronglySorted Z.le (dequeued_depths (log (steps n (init files0)))).
Proof.
  destruct (after_invariant _ bfs_invariant n (init files0))
    as (top & _ & H & _); [|done].
  exists 0. cbn. repeat split; repeat constructor; lia.
Qed.

(** *** Pacing *)

Lemma uniform_range (r : Q) :
  (0 <= r)%Q -> (r < 1)%Q ->
  (3 # 2 <= uniform (3 # 2) 5 r)%Q /\ (uniform (3 # 2) 5 r <= 5)%Q.
Proof. unfold uniform. intros H0 H1. split; lra. Qed.

Lemma pacing_invariant (s : crawl_state) :
  (forall t, (0 <= random_unit t)%Q /\ (random_unit t < 1)%Q) ->
  (exists blocks, log s = concat blocks /\ Forall iteration blocks)
  /\ (forall d, Slept d ∈ log s -> (3 # 2 <= d)%Q /\ (d <= 5)%Q) ->
  cond s = true ->
  (exists blocks, log (body s) = concat blocks /\ Forall iteration blocks)
  /\ (forall d, Slept d ∈ log (body s) -> (3 # 2 <= d)%Q /\ (d <= 5)%Q).
Proof.
  intros Hrand [(blocks & Hlog & Hblocks) Hslept] Hc.
  destruct (loop_cond_true _ Hc) as [(url & depth & rest & Hs) _].
  destruct (loop_body_spec s url depth rest Hs) as [_ Hcases].
  cbn zeta in Hcases.
  destruct Hcases
    as [(_ & _ & _ & Hl)
       |[(_ & _ & _ & e & Hfail & Hl)|(_ & new & _ & _ & _ & Hl)]];
    rewrite Hl.
  - split.
    + exists (blocks ++ [[Dequeued url depth]]).
      rewrite concat_app, Hlog. cbn. split; [done|].
      apply Forall_app. split; [done|]. repeat constructor.
    + intros d. rewrite elem_of_app, list_elem_of_singleton.
      intros [?|?]; [by apply Hslept | done].
  - split.
    + exists (blocks ++ [[Dequeued url depth; Fetched url; e]]).
      rewrite concat_app, Hlog. cbn. split; [done|].
      apply Forall_app. split; [done|]. apply Forall_singleton.
      destruct Hfail as [->|(status & Hne & ->)]; by constructor.
    + intros d. rewrite elem_of_app, !elem_of_cons, elem_of_nil.
      intros [?|[?|[?|[Heq|[]]]]]; try done; [by apply Hslept|].
      by destruct Hfail as [->|(? & _ & ->)].
  - split.
    + eexists (blocks ++ [_]).
      rewrite concat_app, Hlog. cbn [concat]. rewrite app_nil_r.
      split; [done|].
      apply Forall_app. split; [done|]. apply Forall_singleton.
      apply iteration_scrape.
    + intros d. rewrite !elem_of_app, !elem_of_cons, !elem_of_nil.
      intros [?|[[?|[?|[]]]|[H|[?|[[= ->]|[]]]]]]; try done.
      * by apply Hslept.
      * by apply elem_of_enqueued_by in H as (? & ? & _).
      * apply uniform_range; apply Hrand.
Qed.

(** The log of a crawl is a sequence of iterations, each of the shape of a
    skip, a failure or a scrape, and every pause in it lasts between 1.5
    and 5 seconds. *)
Lemma pause_follows_scrape_only (files0 : gmap string artifact) (n : nat) :
  (forall t, (0 <= random_unit t)%Q /\ (random_unit t < 1)%Q) ->
  let s := steps n (init files0) in
  (exists blocks, log s = concat blocks /\ Forall iteration blocks)
  /\ (forall d, Slept d ∈ log s -> (3 # 2 <= d)%Q /\ (d <= 5)%Q).
Proof.
  intros Hrand. cbn zeta.
  apply (after_invariant _ (fun s => pacing_invariant s Hrand)).
  cbn. split.
  - exists []. by split.
  - intros d H. by apply elem_of_nil in H.
Qed.

End Crawl.

(** ** The crawler on the small sites *)

(** C4.  The queue is first in, first out, and starts with the seed at
    depth 0: the depths of the entries taken from it never decrease, so
    every entry of one depth is taken before any entry of the next.  On
    the site whose home page has the children [a] and [b], each with one
    child, both are visited before [a/1] and [b/1]. *)
Theorem dequeue_breadth_first :
  (forall lxml urljoin netloc list_of_set http_get disk_ok random_unit
          base_url max_pages max_depth files0 n,
     StronglySorted Z.le
       (dequeued_depths
          (log (after lxml urljoin netloc list_of_set http_get disk_ok
                      random_unit base_url max_pages max_depth n
                      (initial_state base_url files0)))))
  /\ (fun s => (to_visit (initial_state Demo.home ∅),
                dequeued_urls (log s), dequeued_depths (log s)))
       <$> Demo.crawl Demo.tree_site 10 2 20
     = Some ([(Demo.home, 0)],
             [Demo.home; Demo.page_a; Demo.page_b;
              Demo.page_a1; Demo.page_b1],
             [0; 1; 1; 2; 2]).
Proof.
  split.
  - intros. apply dequeued_depths_sorted.
  - by vm_compute.
Qed.


(** C9, as stated, fails: the failed request for [a] is followed by the
    request for [b] with no pause between the two. *)
Lemma no_pause_after_failed_fetch :
  exists before later,
    log <$> Demo.crawl Demo.chain_site 10 3 20
    = Some (before
            ++ [Fetched Demo.page_a; FailedStatus Demo.page_a 500;
                Dequeued Demo.page_b 1; Fetched Demo.page_b]
            ++ later)%list.
Proof.
  exists [Dequeued Demo.home 0; Fetched Demo.home;
          Enqueued Demo.page_a 1 Demo.home 0;
          Enqueued Demo.page_b 1 Demo.home 0;
          Scraped Demo.home; Slept (26 # 8);
          Dequeued Demo.page_a 1].
  eexists. by vm_compute.
Qed.


Lemma frontier_depth_bounded_witness :
  0 < 3
  /\ forall u d,
       Dequeued u d
       ∈ log (after (Demo.lxml Demo.chain_site) Demo.urljoin Demo.netloc
                    elements (Demo.http_get Demo.chain_site) Demo.disk_ok
                    Demo.random_unit Demo.home 10 3 5
                    (initial_state Demo.home ∅)) ->
       d <= 3.
Proof.
  split; [lia|].
  apply (frontier_depth_bounded (Demo.lxml Demo.chain_site) Demo.urljoin
           Demo.netloc elements (Demo.http_get Demo.chain_site)
           Demo.disk_ok Demo.random_unit Demo.home 10 3 ∅ 5).
  lia.
Defined.

(** On a site that serves nothing the seed fails with status 500, and the
    crawl goes on with the empty queue that is left. *)
Lemma page_failure_is_local_witness :
  let s := initial_state Demo.home ∅ in
  let s' := loop_body (Demo.lxml []) Demo.urljoin Demo.netloc elements
                      (Demo.http_get []) Demo.disk_ok Demo.random_unit
                      Demo.home 3 s in
  to_visit s = [(Demo.home, 0)]
  /\ Z.of_nat (size (visited s)) < 10
  /\ (Demo.home ∉ visited s)
  /\ to_visit s' = [] /\ visited s' = visited s.
Proof.
  cbv zeta.
  assert (H1 : to_visit (initial_state Demo.home ∅) = [(Demo.home, 0)])
    by reflexivity.
  assert (H2 : Z.of_nat (size (visited (initial_state Demo.home ∅))) < 10)
    by (by vm_compute).
  assert (H3 : Demo.home ∉ visited (initial_state Demo.home ∅))
    by apply not_elem_of_empty.
  repeat (split; [done|]).
  destruct (page_failure_is_local (Demo.lxml []) Demo.urljoin Demo.netloc
              elements (Demo.http_get []) Demo.disk_ok Demo.random_unit
              Demo.home 10 3 _ _ _ _ H1 H2 H3)
    as (_ & _ & Hstatus & _).
  destruct (Hstatus 500 "" eq_refl) as (Hq & Hv & _); [done|].
  by split.
Defined.


(** * Further properties *)

(** ** Characters of an artifact name *)

Lemma contains_char_nil (c : ascii) :
  PyStr.contains (String c "") "" = false.
Proof. reflexivity. Qed.

Lemma contains_char_cons (c x : ascii) (s : string) :
  PyStr.contains (String c "") (String x s)
  = (if ascii_dec c x then true else false)
    || PyStr.contains (String c "") s.
Proof.
  cbn [PyStr.contains String.prefix].
  destruct (ascii_dec c x); [|done]. by destruct s.
Qed.

Lemma contains_char_app (c : ascii) (a b : string) :
  PyStr.contains (String c "") (a ++ b)
  = PyStr.contains (String c "") a || PyStr.contains (String c "") b.
Proof.
  induction a as [|x a IH].
  - by rewrite contains_char_nil.
  - change (String x a ++ b) with (String x (a ++ b)).
    rewrite !contains_char_cons, IH. by rewrite orb_assoc.
Qed.

Lemma replace_from_char (c x : ascii) (new s : string) :
  PyStr.replace_from (String c "") new O (String x s)
  = if ascii_dec c x
    then new ++ PyStr.replace_from (String c "") new O s
    else String x (PyStr.replace_from (String c "") new O s).
Proof.
  cbn [PyStr.replace_from String.prefix String.length Nat.pred].
  destruct (ascii_dec c x); [|done]. by destruct s.
Qed.

(** Replacing a character by a text without it removes the character. *)
Lemma replace_char_removes (c : ascii) (new s : string) :
  PyStr.contains (String c "") new = false ->
  PyStr.contains (String c "") (PyStr.replace s (String c "") new) = false.
Proof.
  intros Hnew. unfold PyStr.replace.
  induction s as [|x s IH]; [done|].
  rewrite replace_from_char. destruct (ascii_dec c x) as [->|Hne].
  - by rewrite contains_char_app, Hnew, IH.
  - rewrite contains_char_cons, IH. by destruct (ascii_dec c x).
Qed.

(** Replacing one character does not bring in another one. *)
Lemma replace_char_keeps_out (c d : ascii) (new s : string) :
  PyStr.contains (String d "") s = false ->
  PyStr.contains (String d "") new = false ->
  PyStr.contains (String d "") (PyStr.replace s (String c "") new) = false.
Proof.
  intros Hs Hnew. unfold PyStr.replace.
  induction s as [|x s IH]; [done|].
  rewrite contains_char_cons in Hs. apply orb_false_iff in Hs as [Hx Hs].
  rewrite replace_from_char. destruct (ascii_dec c x) as [->|Hne].
  - by rewrite contains_char_app, Hnew, IH.
  - by rewrite contains_char_cons, Hx, IH.
Qed.

(** X1.  The name [safe_filename] returns holds none of the characters
    [/], [:], [?], [&] and [=], whatever the URL. *)
Theorem safe_filename_characters (url : string) :
  Forall (fun c => PyStr.contains c (safe_filename url) = false)
         ["/"; ":"; "?"; "&"; "="].
Proof.
  unfold safe_filename.
  set (s0 := PyStr.strip_chars "/" url).
  set (s1 := PyStr.replace s0 "/" "_").
  set (s2 := PyStr.replace s1 ":" "").
  set (s3 := PyStr.replace s2 "?" "").
  set (s4 := PyStr.replace s3 "&" "").
  assert (H1 : PyStr.contains "/" s1 = false)
    by (by apply replace_char_removes).
  assert (H2 : PyStr.contains "/" s2 = false /\ PyStr.contains ":" s2 = false).
  { split; [by apply replace_char_keeps_out | by apply replace_char_removes]. }
  assert (H3 : PyStr.contains "/" s3 = false /\ PyStr.contains ":" s3 = false
               /\ PyStr.contains "?" s3 = false).
  { destruct H2. repeat split;
      [by apply replace_char_keeps_out | by apply replace_char_keeps_out
      | by apply replace_char_removes]. }
  assert (H4 : PyStr.contains "/" s4 = false /\ PyStr.contains ":" s4 = false
               /\ PyStr.contains "?" s4 = false
               /\ PyStr.contains "&" s4 = false).
  { destruct H3 as (? & ? & ?). repeat split;
      [by apply replace_char_keeps_out | by apply replace_char_keeps_out
      | by apply replace_char_keeps_out | by apply replace_char_removes]. }
  destruct H4 as (? & ? & ? & ?).
  apply List.Forall_cons; [by apply replace_char_keeps_out|].
  apply List.Forall_cons; [by apply replace_char_keeps_out|].
  apply List.Forall_cons; [by apply replace_char_keeps_out|].
  apply List.Forall_cons; [by apply replace_char_keeps_out|].
  apply List.Forall_cons; [by apply replace_char_removes|].
  apply List.Forall_nil.
Qed.

(** ** Stripping *)

Lemma lstrip_by_head (p : ascii -> bool) (s : string) :
  match PyStr.lstrip_by p s with
  | EmptyString => True
  | String c _ => p c = false
  end.
Proof.
  induction s as [|c s IH]; cbn [PyStr.lstrip_by]; [done|].
  destruct (p c) eqn:E; [exact IH | done].
Qed.

Lemma rstrip_by_head (p : ascii -> bool) (c : ascii) (s : string) :
  PyStr.rstrip_by p (String c s) = ""
  \/ exists kept, PyStr.rstrip_by p (String c s) = String c kept.
Proof.
  cbn [PyStr.rstrip_by]. destruct (PyStr.rstrip_by p s).
  - destruct (p c); [by left | right; by eexists].
  - right; by eexists.
Qed.

Lemma rstrip_by_idempotent (p : ascii -> bool) (s : string) :
  PyStr.rstrip_by p (PyStr.rstrip_by p s) = PyStr.rstrip_by p s.
Proof.
  induction s as [|c s IH]; [done|].
  cbn [PyStr.rstrip_by]. destruct (PyStr.rstrip_by p s) as [|c' kept] eqn:E.
  - destruct (p c) eqn:Ec; [done|]. cbn [PyStr.rstrip_by]. by rewrite Ec.
  - change (PyStr.rstrip_by p (String c (String c' kept)))
      with (match PyStr.rstrip_by p (String c' kept) with
            | "" => if p c then "" else String c ""
            | kept0 => String c kept0
            end).
    by rewrite IH.
Qed.

Lemma lstrip_by_fixed (p : ascii -> bool) (c : ascii) (s : string) :
  p c = false -> PyStr.lstrip_by p (String c s) = String c s.
Proof. intros H. cbn [PyStr.lstrip_by]. by rewrite H. Qed.

(** What [strip] returns is empty or begins with a character that is kept. *)
Lemma strip_by_head (p : ascii -> bool) (s : string) :
  match PyStr.strip_by p s with
  | EmptyString => True
  | String c _ => p c = false
  end.
Proof.
  unfold PyStr.strip_by. pose proof (lstrip_by_head p s) as H.
  destruct (PyStr.lstrip_by p s) as [|c rest]; [done|].
  destruct (rstrip_by_head p c rest) as [->|[kept ->]]; done.
Qed.

(** Stripping twice is stripping once. *)
Lemma strip_by_idempotent (p : ascii -> bool) (s : string) :
  PyStr.strip_by p (PyStr.strip_by p s) = PyStr.strip_by p s.
Proof.
  pose proof (strip_by_head p s) as H.
  destruct (PyStr.strip_by p s) as [|c rest] eqn:E; [done|].
  unfold PyStr.strip_by at 1. rewrite lstrip_by_fixed by done.
  rewrite <- E. unfold PyStr.strip_by. apply rstrip_by_idempotent.
Qed.

Lemma strip_left_trimmed (s : string) : left_trimmed (PyStr.strip s).
Proof. apply strip_by_head. Qed.

Lemma slice_to_left_trimmed (n : nat) (s : string) :
  left_trimmed s -> left_trimmed (PyStr.slice_to n s).
Proof. destruct n, s; done. Qed.

Lemma join_left_trimmed (sep : string) (parts : list string) :
  Forall (fun p => p ≠ "" /\ left_trimmed p) parts ->
  left_trimmed (PyStr.join sep parts).
Proof.
  destruct parts as [|p parts]; [done|]. intros H.
  apply Forall_cons in H as [[Hne Hp] _].
  destruct parts; cbn [PyStr.join]; [done|].
  destruct p; [done | exact Hp].
Qed.

Lemma all_strings_stripped (n : node) :
  Forall (fun p => p ≠ "" /\ left_trimmed p) (Soup.all_strings true n).
Proof.
  unfold Soup.all_strings. apply Forall_forall. intros p Hp.
  apply list_elem_of_In, in_flat_map in Hp as (d & _ & Hd).
  destruct d as [s| |]; cbn in Hd; try done.
  pose proof (strip_left_trimmed s) as Hs.
  destruct (PyStr.strip s) eqn:E; [done|].
  destruct Hd as [<-|[]]. by split.
Qed.

Lemma get_text_left_trimmed (sep : string) (n : node) :
  left_trimmed (Soup.get_text sep true n).
Proof. apply join_left_trimmed, all_strings_stripped. Qed.

(** ** The page parser, continued *)

(** X2.  [extract_info] raises exactly on the documents whose title tag
    has no single string below it; on all others it returns a record
    whose snippet is cut to 500 characters (exactly 500 when the text is
    that long) and which lists at most five second-level headings. *)
Theorem extract_info_outcome (lxml : string -> node) (html : string) :
  (extract_info lxml html = None <->
   exists t, Soup.find "title" (lxml html) = Some t
             /\ Soup.string_of t = None)
  /\ forall info,
       extract_info lxml html = Some info ->
       text_snippet info
       = PyStr.slice_to 500 (Soup.get_text " " true (lxml html))
       /\ (String.length (text_snippet info) <= 500)%nat
       /\ ((500 <= String.length (Soup.get_text " " true (lxml html)))%nat ->
           String.length (text_snippet info) = 500%nat)
       /\ (length (h2s info) <= 5)%nat.
Proof.
  split.
  - unfold extract_info.
    destruct (Soup.find "title" (lxml html)) as [t|].
    + destruct (Soup.string_of t) eqn:Es.
      * split; [done|]. intros (t' & [= <-] & H). congruence.
      * split; [|done]. intros _. by exists t.
    + split; [done|]. by intros (t' & ? & _).
  - intros info H. apply extract_info_fields in H. cbn zeta in H.
    destruct H as (H1 & H2 & H3 & _ & H5 & _). done.
Qed.

(** X3.  No field of the record begins with white space: the title is
    stripped on both sides, and the first heading, every second-level
    heading and the snippet are empty or begin with a character that is
    not white space. *)
Theorem extract_info_left_trimmed (lxml : string -> node) (html : string)
    (info : page_info) :
  extract_info lxml html = Some info ->
  PyStr.strip (title info) = title info
  /\ left_trimmed (title info)
  /\ left_trimmed (h1 info)
  /\ Forall left_trimmed (h2s info)
  /\ left_trimmed (text_snippet info).
Proof.
  intros H. unfold extract_info in H.
  set (soup := lxml html) in *.
  remember (PyStr.slice_to 500 (Soup.get_text " " true soup)) as snip
    eqn:Esnip.
  assert (Hsnip : left_trimmed snip)
    by (subst snip; apply slice_to_left_trimmed, get_text_left_trimmed).
  remember (take 5 (List.map (Soup.get_text "" true)
                             (Soup.find_all ["h2"] soup))) as hs eqn:Ehs.
  assert (Hhs : Forall left_trimmed hs).
  { subst hs. apply Forall_take, Forall_forall. intros x Hx.
    apply list_elem_of_In, in_map_iff in Hx as (h & <- & _).
    apply get_text_left_trimmed. }
  assert (Hh1 : left_trimmed
                  match Soup.find "h1" soup with
                  | Some h => Soup.get_text "" true h
                  | None => ""
                  end).
  { destruct (Soup.find "h1" soup); [apply get_text_left_trimmed | done]. }
  destruct (Soup.find "title" soup) as [t|].
  - destruct (Soup.string_of t) as [ts|]; [|done].
    injection H as <-. cbn [title h1 h2s text_snippet].
    repeat split; try done.
    + apply strip_by_idempotent.
    + apply strip_left_trimmed.
  - injection H as <-. cbn [title h1 h2s text_snippet].
    repeat split; done.
Qed.

Lemma extract_info_left_trimmed_witness :
  exists info,
    extract_info (Demo.lxml [Demo.partners]) (Demo.markup_of Demo.partners)
    = Some info
    /\ left_trimmed (text_snippet info).
Proof.
  eexists. split; [by vm_compute|].
  eapply (extract_info_left_trimmed (Demo.lxml [Demo.partners])
            (Demo.markup_of Demo.partners)).
  by vm_compute.
Defined.

(** ** The article splitter *)

Lemma set_last_content_length (c : string) (l : list text_section) :
  length (set_last_content c l) = length l.
Proof.
  induction l as [|x l IH]; [done|].
  destruct l; [done|]. cbn [set_last_content length] in *. by rewrite IH.
Qed.

Lemma set_last_content_headings (c : string) (l : list text_section) :
  List.map heading (set_last_content c l) = List.map heading l.
Proof.
  induction l as [|x l IH]; [done|].
  destruct l; [done|]. cbn [set_last_content List.map] in *. by rewrite IH.
Qed.

Lemma set_last_content_Forall (P : text_section -> Prop) (c : string)
    (l : list text_section) :
  (forall h, P (TextSection h c)) ->
  Forall P l -> Forall P (set_last_content c l).
Proof.
  intros Hc. induction l as [|x l IH]; [done|]. intros H.
  apply Forall_cons in H as [Hx Hl].
  destruct l; [by repeat constructor|].
  cbn [set_last_content] in *. constructor; [done | by apply IH].
Qed.

(** What one heading does to the sections: nothing, or one more section
    at the end, after the content of the last one was perhaps filled in. *)
Lemma split_step_cases (text lower_text : string)
    (st : list text_section * nat) (h : string) :
  split_step text lower_text st h = st
  \/ exists c index,
       (split_step text lower_text st h).1
       = ((if negb (bool_decide (st.1 = [])) && nonempty (PyStr.strip c)
           then set_last_content (PyStr.strip c) st.1 else st.1)
          ++ [TextSection h ""])%list
       /\ py_find (py_lower h) lower_text = Some index
       /\ (st.2 < index)%nat.
Proof.
  unfold split_step.
  destruct (py_find (py_lower h) lower_text) as [index|]; [|by left].
  destruct (st.2 <? index)%nat eqn:E; [|by left].
  right. eexists _, index. split; [done|]. split; [done|].
  by apply Nat.ltb_lt.
Qed.

Lemma split_fold_length (text lower_text : string) (headings : list string)
    (st : list text_section * nat) :
  (length (fold_left (split_step text lower_text) headings st).1
   <= length st.1 + length headings)%nat.
Proof.
  revert st; induction headings as [|h headings IH]; intros st;
    cbn [fold_left length]; [lia|].
  etrans; [apply IH|].
  destruct (split_step_cases text lower_text st h) as [->|(c & i & -> & _)];
    [lia|].
  rewrite length_app. cbn [length].
  destruct (negb _ && _); rewrite ?set_last_content_length; lia.
Qed.

(** X4.  [split_text_by_headings] never returns an empty list, and never
    more sections than there are headings (one section when there are
    none). *)
Theorem split_text_section_count (text : string) (headings : list string) :
  split_text_by_headings text headings ≠ []
  /\ (length (split_text_by_headings text headings)
      <= Nat.max 1 (length headings))%nat.
Proof.
  unfold split_text_by_headings.
  pose proof (split_fold_length text (py_lower text) headings ([], O)) as Hlen.
  destruct (fold_left _ headings ([], O)) as [sections last] eqn:E.
  cbn [fst snd length] in *.
  destruct sections as [|x sections]; [split; [done | cbn; lia]|].
  destruct (nonempty _).
  - split.
    + intros H. apply (f_equal length) in H.
      rewrite set_last_content_length in H. done.
    + rewrite set_last_content_length. cbn [length] in *. lia.
  - split; [done|]. cbn [length] in *. lia.
Qed.

Lemma split_fold_headings (text lower_text : string) (headings : list string)
    (st : list text_section * nat) :
  sublist
    (List.map heading (fold_left (split_step text lower_text) headings st).1)
    (List.map heading st.1 ++ headings)%list.
Proof.
  revert st; induction headings as [|h headings IH]; intros st;
    cbn [fold_left].
  - by rewrite app_nil_r.
  - etrans; [apply IH|].
    destruct (split_step_cases text lower_text st h) as [->|(c & i & -> & _)].
    + apply sublist_app; [done|]. by apply sublist_cons.
    + rewrite map_app. cbn [List.map heading].
      replace (List.map heading
                 (if negb (bool_decide (st.1 = [])) && nonempty (PyStr.strip c)
                  then set_last_content (PyStr.strip c) st.1 else st.1))
        with (List.map heading st.1)
        by (destruct (negb _ && _); by rewrite ?set_last_content_headings).
      by rewrite <- app_assoc.
Qed.

(** X5.  The sections come in the order of the headings given: their
    headings are a sub-list of the argument, or the result is the single
    section named [Body]. *)
Theorem split_text_headings_in_order (text : string)
    (headings : list string) :
  split_text_by_headings text headings
  = [TextSection "Body" (PyStr.strip text)]
  \/ sublist (List.map heading (split_text_by_headings text headings))
             headings.
Proof.
  unfold split_text_by_headings.
  pose proof (split_fold_headings text (py_lower text) headings ([], O))
    as Hsub.
  destruct (fold_left _ headings ([], O)) as [sections last] eqn:E.
  cbn [fst snd List.map app] in *.
  destruct sections as [|x sections]; [by left|]. right.
  destruct (nonempty _); by rewrite ?set_last_content_headings.
Qed.

Lemma split_fold_trimmed (text lower_text : string) (headings : list string)
    (st : list text_section * nat) :
  Forall (fun s => PyStr.strip (content s) = content s) st.1 ->
  Forall (fun s => PyStr.strip (content s) = content s)
         (fold_left (split_step text lower_text) headings st).1.
Proof.
  revert st; induction headings as [|h headings IH]; intros st Hst;
    cbn [fold_left]; [done|].
  apply IH.
  destruct (split_step_cases text lower_text st h) as [->|(c & i & -> & _)];
    [done|].
  apply Forall_app. split; [|by repeat constructor].
  destruct (negb _ && _); [|done].
  apply set_last_content_Forall; [|done].
  intros ?. apply strip_by_idempotent.
Qed.

(** X6.  The content of every section is stripped: it has no white space
    at either end. *)
Theorem split_text_contents_stripped (text : string)
    (headings : list string) :
  Forall (fun s => PyStr.strip (content s) = content s)
         (split_text_by_headings text headings).
Proof.
  unfold split_text_by_headings.
  pose proof (split_fold_trimmed text (py_lower text) headings ([], O))
    as Htrim.
  destruct (fold_left _ headings ([], O)) as [sections last] eqn:E.
  cbn [fst snd] in *. specialize (Htrim (Forall_nil_2 _)).
  destruct sections as [|x sections].
  - repeat constructor. apply strip_by_idempotent.
  - destruct (nonempty _); [|done].
    apply set_last_content_Forall; [|done].
    intros ?. apply strip_by_idempotent.
Qed.

Lemma py_find_prefix (needle hay : string) :
  String.prefix needle hay = true -> py_find needle hay = Some O.
Proof. intros H. destruct hay; cbn [py_find]; by rewrite H. Qed.

Lemma py_find_absent (needle hay : string) :
  PyStr.contains needle hay = false -> py_find needle hay = None.
Proof.
  induction hay as [|c hay IH]; cbn [PyStr.contains py_find]; intros H;
    apply orb_false_iff in H as [-> H]; [done|].
  by rewrite IH.
Qed.

(** X7.  A heading counts only when it is found behind the start of the
    text: if every heading is either absent from the text or stands at
    its very beginning (in any letter case), all of them are ignored and
    the whole text comes back as the one section [Body]. *)
Theorem split_text_leading_heading_ignored (text : string)
    (headings : list string) :
  Forall (fun h =>
            PyStr.contains (py_lower h) (py_lower text) = false
            \/ PyStr.startswith (py_lower text) (py_lower h) = true)
         headings ->
  split_text_by_headings text headings
  = [TextSection "Body" (PyStr.strip text)].
Proof.
  intros H. unfold split_text_by_headings.
  assert (Hfold : fold_left (split_step text (py_lower text)) headings ([], O)
                  = ([], O)).
  { induction headings as [|h headings IH]; [done|].
    apply Forall_cons in H as [Hh H]. cbn [fold_left].
    replace (split_step text (py_lower text) ([], O) h) with
      (@nil text_section, O); [by apply IH|].
    unfold split_step.
    destruct Hh as [Hh|Hh].
    - by rewrite (py_find_absent _ _ Hh).
    - by rewrite (py_find_prefix _ _ Hh). }
  by rewrite Hfold.
Qed.

Lemma split_text_leading_heading_ignored_witness :
  split_text_by_headings "Title here and text" ["Title"; "Missing"]
  = [TextSection "Body" "Title here and text"].
Proof.
  apply (split_text_leading_heading_ignored "Title here and text"
           ["Title"; "Missing"]).
  repeat constructor; by vm_compute.
Defined.

(** ** The list of sites *)

Section SiteListProperties.

Variable urlparse : string -> option (string * string).

#[local] Abbreviation clean line := (clean_url urlparse (PyStr.strip line)).
#[local] Abbreviation read := (read_sites urlparse).
#[local] Abbreviation accepted :=
  (Forall (fun l => is_done l = false /\ is_Some (clean l))).

Lemma clean_url_raises (url : string) :
  clean_url urlparse url = None <->
  urlparse url = None
  \/ (exists netloc, urlparse url = Some ("", netloc))
     /\ urlparse ("https://" ++ url) = None.
Proof.
  unfold clean_url.
  destruct (urlparse url) as [[scheme netloc]|]; [|split; [by left | done]].
  destruct scheme as [|c scheme]; cbn [fst snd nonempty].
  - destruct (urlparse ("https://" ++ url)) as [[scheme' netloc']|].
    + split; [done|]. by intros [?|[_ ?]].
    + split; [|done]. intros _. right. split; [by eexists | done].
  - split; [done|]. by intros [?|[(? & ?) _]].
Qed.

Lemma read_sites_from (lines acc sites : list string) :
  read lines acc = Sites sites ->
  NoDup acc ->
  NoDup sites
  /\ exists before stop rest,
       lines = (before ++ stop :: rest)%list
       /\ is_done stop = true
       /\ accepted before
       /\ forall x, x ∈ sites <->
            x ∈ acc \/ exists l, l ∈ before /\ clean l = Some x.
Proof.
  revert acc; induction lines as [|line lines IH]; intros acc H Hacc;
    cbn [read_sites] in H; [done|].
  destruct (is_done line) eqn:Ed.
  - injection H as <-. split; [done|].
    exists [], line, lines. repeat split; try done.
    + by left.
    + intros [?|(l & Hl & _)]; [done | by apply elem_of_nil in Hl].
  - destruct (clean line) as [cleaned|] eqn:Ec; [|done].
    destruct (bool_decide (cleaned ∈ acc)) eqn:Ein.
    + apply bool_decide_eq_true in Ein.
      destruct (IH _ H Hacc) as (Hnd & before & stop & rest & -> & Hs & Hb & Hx).
      split; [done|]. exists (line :: before), stop, rest.
      repeat split; try done; [constructor; [by rewrite Ec | done] | |].
      * rewrite Hx. intros [?|(l & Hl & Hcl)]; [by left|].
        right. exists l. split; [by right | done].
      * rewrite Hx. intros [?|(l & Hl & Hcl)]; [by left|].
        apply elem_of_cons in Hl as [->|Hl].
        -- left. rewrite Ec in Hcl. by injection Hcl as <-.
        -- right. by exists l.
    + apply bool_decide_eq_false in Ein.
      assert (Hacc' : NoDup (acc ++ [cleaned])).
      { apply NoDup_app. repeat split; [done | | apply NoDup_singleton].
        intros x Hx Hx'. apply list_elem_of_singleton in Hx' as ->. done. }
      destruct (IH _ H Hacc')
        as (Hnd & before & stop & rest & -> & Hs & Hb & Hx).
      split; [done|]. exists (line :: before), stop, rest.
      repeat split; try done; [constructor; [by rewrite Ec | done] | |].
      * rewrite Hx, elem_of_app, list_elem_of_singleton.
        intros [[?| ->]|(l & Hl & Hcl)]; [by left | |].
        -- right. exists line. split; [left | done].
        -- right. exists l. split; [by right | done].
      * rewrite Hx, elem_of_app, list_elem_of_singleton.
        intros [?|(l & Hl & Hcl)]; [by left; left|].
        apply elem_of_cons in Hl as [->|Hl].
        -- left; right. rewrite Ec in Hcl. by injection Hcl as <-.
        -- right. by exists l.
Qed.

(** The loop runs through the lines it accepts. *)
Lemma read_sites_accepted (before lines acc : list string) :
  accepted before ->
  exists acc', read (before ++ lines) acc = read lines acc'.
Proof.
  revert acc; induction before as [|l before IH]; intros acc Hb.
  - by exists acc.
  - apply Forall_cons in Hb as [[Hd [cleaned Hc]] Hb].
    cbn [app read_sites]. rewrite Hd, Hc. by apply IH.
Qed.

Lemma read_sites_eof (lines acc : list string) :
  read lines acc = InputEnded <-> accepted lines.
Proof.
  revert acc; induction lines as [|line lines IH]; intros acc;
    cbn [read_sites]; [done|].
  destruct (is_done line) eqn:Ed.
  - split; [done|]. intros H. apply Forall_cons in H as [[? _] _]. congruence.
  - destruct (clean line) as [cleaned|] eqn:Ec.
    + rewrite IH. split.
      * intros H. constructor; [by rewrite Ec | done].
      * intros H. by apply Forall_cons in H as [_ ?].
    + split; [done|]. intros H. apply Forall_cons in H as [[_ [? ?]] _].
      congruence.
Qed.

Lemma read_sites_rejected (lines acc : list string) (bad : string) :
  read lines acc = UrlRejected bad <->
  exists before rest,
    lines = (before ++ bad :: rest)%list
    /\ accepted before /\ is_done bad = false /\ clean bad = None.
Proof.
  revert acc; induction lines as [|line lines IH]; intros acc;
    cbn [read_sites].
  { split; [done|]. intros (before & rest & H & _). by destruct before. }
  destruct (is_done line) eqn:Ed.
  - split; [done|]. intros (before & rest & H & Hb & Hd & _).
    destruct before as [|l before]; injection H as -> ->; [congruence|].
    apply Forall_cons in Hb as [[? _] _]. congruence.
  - destruct (clean line) as [cleaned|] eqn:Ec.
    + rewrite IH. split.
      * intros (before & rest & -> & Hb & Hd & Hc).
        exists (line :: before), rest. repeat split; try done.
        constructor; [by rewrite Ec | done].
      * intros (before & rest & H & Hb & Hd & Hc).
        destruct before as [|l before]; injection H as -> ->; [congruence|].
        apply Forall_cons in Hb as [_ Hb]. by exists before, rest.
    + split.
      * intros [= <-]. by exists [], lines.
      * intros (before & rest & H & Hb & Hd & Hc).
        destruct before as [|l before]; injection H as -> ->; [done|].
        apply Forall_cons in Hb as [[_ [? ?]] _]. congruence.
Qed.

(** X8.  The input loop of [main] stops at the first line that reads
    [done] in any letter case, provided [clean_url] raises on none of the
    lines before it; the site list it leaves then has no duplicates and
    holds exactly the cleaned URLs of those lines.  The loop ends with the
    exception of [urlparse] at the first line on which [clean_url] raises,
    which it does exactly when [urlparse] raises on the line or finds no
    scheme and raises on the line behind [https://]; and it ends with the
    exception of [input()] when the lines run out before either. *)
Theorem read_sites_spec (lines : list string) :
  (forall before stop rest,
     lines = (before ++ stop :: rest)%list ->
     accepted before -> is_done stop = true ->
     exists sites, read lines [] = Sites sites)
  /\ (forall sites,
        read lines [] = Sites sites ->
        NoDup sites
        /\ exists before stop rest,
             lines = (before ++ stop :: rest)%list
             /\ is_done stop = true
             /\ accepted before
             /\ forall x, x ∈ sites <->
                  exists l, l ∈ before /\ clean l = Some x)
  /\ (forall bad,
        read lines [] = UrlRejected bad <->
        exists before rest,
          lines = (before ++ bad :: rest)%list
          /\ accepted before /\ is_done bad = false
          /\ (urlparse (PyStr.strip bad) = None
              \/ (exists netloc,
                    urlparse (PyStr.strip bad) = Some ("", netloc))
                 /\ urlparse ("https://" ++ PyStr.strip bad) = None))
  /\ (read lines [] = InputEnded <-> accepted lines).
Proof.
  refine (conj _ (conj _ (conj _ _))).
  - intros before stop rest -> Hb Hs.
    destruct (read_sites_accepted before (stop :: rest) [] Hb) as [acc ->].
    exists acc. cbn [read_sites]. by rewrite Hs.
  - intros sites H.
    destruct (read_sites_from _ _ _ H (NoDup_nil_2 (A:=string)))
      as (Hnd & before & stop & rest & Hl & Hs & Hb & Hx).
    split; [done|]. exists before, stop, rest. repeat split; try done.
    + intros Hin. apply Hx in Hin as [Hin|?]; [|done].
      by apply elem_of_nil in Hin.
    + intros ?. apply Hx. by right.
  - intros bad. rewrite read_sites_rejected.
    split; intros (before & rest & Hl & Hb & Hd & Hc);
      exists before, rest; repeat split; try done;
      by apply clean_url_raises.
  - apply read_sites_eof.
Qed.

End SiteListProperties.

(** On the three lines [example.com], an opening square bracket and [done]
    the loop of [main] ends at the second line with the exception of
    [urlparse]; without that line it returns the one site. *)
Lemma read_sites_bracket :
  read_sites DemoUrl.urlparse ["example.com"; "["; "done"] []
  = UrlRejected "["
  /\ read_sites DemoUrl.urlparse ["example.com"; " Done "] []
     = Sites ["https://example.com/"].
Proof. split; by vm_compute. Qed.

(** ** The crawl loop, continued *)

Section CrawlMore.

Local Open Scope list_scope.

Variable lxml : string -> node.
Variable urljoin : string -> string -> option string.
Variable netloc : string -> string.
Variable list_of_set : gset string -> list string.
Variable http_get : nat -> string -> option (Z * string).
Variable disk_ok : nat -> string -> bool.
Variable random_unit : nat -> Q.
Variable base_url : string.
Variable max_pages max_depth : Z.

#[local] Abbreviation body :=
  (loop_body lxml urljoin netloc list_of_set http_get disk_ok random_unit
             base_url max_depth).
#[local] Abbreviation cond := (loop_cond max_pages).
#[local] Abbreviation steps :=
  (after lxml urljoin netloc list_of_set http_get disk_ok random_unit
         base_url max_pages max_depth).
#[local] Abbreviation init := (initial_state base_url).
#[local] Abbreviation dom := (site_domain netloc base_url).
#[local] Abbreviation enqueued_by url depth :=
  (List.map (fun l => Enqueued l (depth + 1) url depth)).
#[local] Abbreviation entries_at depth :=
  (List.map (fun l : string => (l, depth + 1))).
#[local] Abbreviation queued s := (List.map fst (to_visit s)).

(** *** More of what one iteration does *)

Lemma save_page_files (d url html : string) (info : page_info)
    (s : crawl_state) :
  let r := save_page disk_ok d url html info s in
  topical_map r.1 = topical_map s
  /\ forall p, p ≠ html_path d url -> p ≠ json_path d url ->
               files r.1 !! p = files s !! p.
Proof.
  unfold save_page.
  destruct (disk_ok (clock s) (path_join RAW_PAGES_DIR d)); [|done].
  destruct (disk_ok (clock s) (html_path d url)); [|done].
  destruct (disk_ok (clock s) (json_path d url));
    cbn [fst negb write_file files topical_map]; (split; [done|]);
    intros p H1 H2; by rewrite ?lookup_insert_ne.
Qed.

Lemma enqueue_links_frame (links : list string) (url : string) (depth : Z)
    (s : crawl_state) :
  files (enqueue_links links url depth s) = files s
  /\ topical_map (enqueue_links links url depth s) = topical_map s.
Proof.
  revert s; induction links as [|link links IH]; intros s; [done|].
  cbn [enqueue_links]. destruct (_ && _); [|apply IH].
  destruct (IH (emit (Enqueued link (depth + 1) url depth)
                  (set_to_visit (to_visit s ++ [(link, depth + 1)]) s)))
    as [-> ->]. done.
Qed.

(** The links appended are those that are neither visited nor queued,
    each once. *)
Lemma enqueue_links_detail (links : list string) (url : string) (depth : Z)
    (s : crawl_state) :
  exists new,
    to_visit (enqueue_links links url depth s)
    = to_visit s ++ entries_at depth new
    /\ (NoDup (queued s) -> NoDup (queued s ++ new))
    /\ forall l, l ∈ new <->
         l ∈ links /\ (l ∉ visited s) /\ (l ∉ queued s).
Proof.
  revert s; induction links as [|link links IH]; intros s.
  - exists []. split; [cbn; by rewrite app_nil_r|].
    split; [intros H; by rewrite app_nil_r|].
    intros l. split; [intros H | intros (H & _)]; by apply elem_of_nil in H.
  - cbn [enqueue_links].
    destruct (bool_decide (link ∉ visited s)) eqn:Ev;
      [destruct (bool_decide (link ∉ queued s)) eqn:Eq|]; cbn [andb].
    + apply bool_decide_eq_true in Ev, Eq.
      destruct (IH (emit (Enqueued link (depth + 1) url depth)
                      (set_to_visit (to_visit s ++ [(link, depth + 1)]) s)))
        as (new & Hq & Hnd & Hin).
      cbn [to_visit visited emit set_to_visit] in Hq, Hnd, Hin.
      rewrite map_app in Hnd, Hin. cbn [List.map fst] in Hnd, Hin.
      exists (link :: new). split; [|split].
      * rewrite Hq. cbn [List.map]. by rewrite <- app_assoc.
      * intros Hs. rewrite <- app_assoc in Hnd. apply Hnd.
        apply NoDup_app. split; [done|]. split; [|apply NoDup_singleton].
        intros x Hx Hx'. apply list_elem_of_singleton in Hx' as ->. done.
      * intros l. rewrite !elem_of_cons, Hin, elem_of_app,
          list_elem_of_singleton.
        split.
        -- intros [->|(Hl & Hv & Hn)]; [by split; [left|] |].
           split; [by right|]. split; [done|]. intros Hl'. apply Hn. by left.
        -- intros ([->|Hl] & Hv & Hn); [by left|].
           destruct (decide (l = link)) as [->|Hne]; [by left|].
           right. split; [done|]. split; [done|]. by intros [?|?].
    + apply bool_decide_eq_false in Eq.
      destruct (IH s) as (new & Hq & Hnd & Hin).
      exists new. split; [done|]. split; [done|].
      intros l. rewrite Hin, elem_of_cons. split.
      * intros (Hl & Hv & Hn). by split; [right|].
      * intros ([->|Hl] & Hv & Hn); [by destruct Eq | done].
    + apply bool_decide_eq_false in Ev.
      destruct (IH s) as (new & Hq & Hnd & Hin).
      exists new. split; [done|]. split; [done|].
      intros l. rewrite Hin, elem_of_cons. split.
      * intros (Hl & Hv & Hn). by split; [right|].
      * intros ([->|Hl] & Hv & Hn); [by destruct Ev | done].
Qed.

(** The files, the topical map and the queue after one iteration. *)
Lemma loop_body_detail (s : crawl_state) (url : string) (depth : Z)
    (rest : list (string * Z)) :
  to_visit s = (url, depth) :: rest ->
  let s' := body s in
  (forall p, p ≠ html_path dom url -> p ≠ json_path dom url ->
             files s' !! p = files s !! p)
  /\ (topical_map s' = topical_map s
      \/ exists label, topical_map s' = <[label := []]> (topical_map s))
  /\ (to_visit s' = rest
      \/ exists html links new,
           (url ∉ visited s)
           /\ http_get (S (clock s)) url = Some (200, html)
           /\ depth < max_depth
           /\ get_nav_links lxml urljoin list_of_set html base_url dom
              = Some links
           /\ to_visit s' = rest ++ entries_at depth new
           /\ (NoDup (List.map fst rest) -> NoDup (List.map fst rest ++ new))
           /\ forall l, l ∈ new <->
                l ∈ links /\ (l ∉ visited s) /\ (l ∉ List.map fst rest)).
Proof.
  intros Hq. unfold loop_body. rewrite Hq.
  cbn [visited emit set_to_visit tick].
  destruct (bool_decide (url ∈ visited s)) eqn:Hin.
  { cbn. refine (conj _ (conj _ _)); [done | by left | by left]. }
  apply bool_decide_eq_false in Hin.
  unfold visit. cbn [clock emit set_to_visit tick].
  destruct (http_get (S (clock s)) url) as [[status html]|] eqn:Hget;
    [|cbn; refine (conj _ (conj _ _)); [done | by left | by left]].
  destruct (status =? 200) eqn:Est; cbn [negb];
    [|cbn; refine (conj _ (conj _ _)); [done | by left | by left]].
  apply Z.eqb_eq in Est as ->.
  destruct (extract_info lxml html) as [info|];
    [|cbn; refine (conj _ (conj _ _)); [done | by left | by left]].
  match goal with
  | |- context [save_page ?dk ?d ?u ?h ?i ?st] =>
      pose proof (save_page_frame dk d u h i st) as Hframe;
      pose proof (save_page_files d u h i st) as Hfiles;
      destruct (save_page dk d u h i st) as [s1 ok]
  end.
  cbn in Hframe, Hfiles.
  destruct Hframe as (Hv1 & Hq1 & Hl1 & Hc1). destruct Hfiles as (Ht1 & Hf1).
  destruct ok; [|cbn; rewrite Ht1, Hq1; refine (conj _ (conj _ _)); [done | by left | by left]].
  destruct (depth <? max_depth) eqn:Ed.
  - destruct (get_nav_links lxml urljoin list_of_set html base_url dom)
      as [links|] eqn:Hnav.
    2:{ cbn. rewrite Ht1, Hq1. refine (conj _ (conj _ _)); [done | | by left].
        right. by eexists. }
    match goal with
    | |- context [enqueue_links links url depth ?st] =>
        destruct (enqueue_links_detail links url depth st)
          as (new & Hq2 & Hnd2 & Hin2);
        destruct (enqueue_links_frame links url depth st) as (Hf2 & Ht2)
    end.
    cbn [to_visit visited files topical_map set_topical_map] in Hq2, Hnd2,
      Hin2, Hf2, Ht2.
    rewrite Hq1 in Hq2, Hnd2, Hin2. rewrite Hv1 in Hin2.
    unfold random_delay.
    cbn [to_visit visited files topical_map emit set_visited].
    rewrite Hf2, Ht2, Hq2, Ht1. split; [done|]. split.
    + right. by eexists.
    + right. exists html, links, new. apply Z.ltb_lt in Ed.
      repeat split; try done; by apply Hin2.
  - unfold random_delay.
    cbn [to_visit visited files topical_map emit set_visited set_topical_map].
    rewrite Hq1, Ht1. split; [done|]. split; [|by left].
    right. by eexists.
Qed.

#[local] Abbreviation body_spec :=
  (loop_body_spec lxml urljoin netloc list_of_set http_get disk_ok
                  random_unit base_url max_depth).
#[local] Abbreviation invariant :=
  (after_invariant lxml urljoin netloc list_of_set http_get disk_ok
                   random_unit base_url max_pages max_depth).

Lemma queued_entries_at (depth : Z) (new : list string) :
  List.map fst (entries_at depth new) = new.
Proof. induction new as [|l new IH]; cbn; [done | by rewrite IH]. Qed.

Lemma fetched_urls_app (l1 l2 : list event) :
  fetched_urls (l1 ++ l2) = fetched_urls l1 ++ fetched_urls l2.
Proof. apply flat_map_app. Qed.

Lemma fetched_urls_enqueued (url : string) (depth : Z) (new : list string) :
  fetched_urls (enqueued_by url depth new) = [].
Proof. by induction new. Qed.

Lemma scraped_urls_app (l1 l2 : list event) :
  scraped_urls (l1 ++ l2) = scraped_urls l1 ++ scraped_urls l2.
Proof. apply flat_map_app. Qed.

Lemma scraped_urls_enqueued (url : string) (depth : Z) (new : list string) :
  scraped_urls (enqueued_by url depth new) = [].
Proof. by induction new. Qed.

Lemma pauses_app (l1 l2 : list event) :
  pauses (l1 ++ l2) = pauses l1 ++ pauses l2.
Proof. apply flat_map_app. Qed.

Lemma pauses_enqueued (url : string) (depth : Z) (new : list string) :
  pauses (enqueued_by url depth new) = [].
Proof. by induction new. Qed.

Lemma elem_of_fetched_urls (u : string) (l : list event) :
  u ∈ fetched_urls l <-> Fetched u ∈ l.
Proof.
  unfold fetched_urls. rewrite !list_elem_of_In, in_flat_map. split.
  - intros (e & He & Hu). destruct e; cbn in Hu; try done.
    by destruct Hu as [->|[]].
  - intros H. exists (Fetched u). split; [done | by left].
Qed.

(** *** The queue *)

Lemma queue_nodup_step (s : crawl_state) :
  NoDup (queued s) -> cond s = true -> NoDup (queued (body s)).
Proof.
  intros Hnd Hc.
  destruct (loop_cond_true _ _ Hc) as [(url & depth & rest & Hs) _].
  destruct (loop_body_detail s url depth rest Hs) as (_ & _ & Hqueue).
  rewrite Hs in Hnd. cbn [List.map fst] in Hnd.
  apply NoDup_cons in Hnd as [_ Hnd].
  destruct Hqueue as [->|(html & links & new & _ & _ & _ & _ & -> & Hnew & _)];
    [done|].
  rewrite map_app, queued_entries_at. by apply Hnew.
Qed.

(** X9.  At every point of a crawl the URLs waiting in the queue are
    pairwise different. *)
Theorem queue_has_no_duplicates (files0 : gmap string artifact) (n : nat) :
  NoDup (queued (steps n (init files0))).
Proof.
  apply (invariant (fun s => NoDup (queued s))).
  - apply queue_nodup_step.
  - cbn. apply NoDup_singleton.
Qed.

(** *** Only filtered links are requested *)

Lemma get_nav_links_valid (html base d : string) (links : list string) :
  (forall (X : gset string) (x : string), x ∈ list_of_set X -> x ∈ X) ->
  get_nav_links lxml urljoin list_of_set html base d = Some links ->
  forall l, l ∈ links -> is_valid_link l d = true.
Proof.
  intros Hset H l Hl. unfold get_nav_links in H.
  destruct (collect_links urljoin base d (nav_anchors (lxml html)) ∅)
    as [found|] eqn:E; [|done].
  injection H as <-. apply Hset in Hl.
  apply (collect_links_spec _ _ _ _ _ _ E) in Hl as [Hl|[_ ?]]; [|done].
  by apply not_elem_of_empty in Hl.
Qed.

(** X10.  If the list made of the link set holds no other element than
    the set, every URL the crawl requests is the seed or a link that
    [is_valid_link] accepted for the domain of the site. *)
Theorem requests_are_filtered (files0 : gmap string artifact) (n : nat) :
  (forall (X : gset string) (x : string), x ∈ list_of_set X -> x ∈ X) ->
  forall u,
    Fetched u ∈ log (steps n (init files0)) ->
    u = base_url \/ is_valid_link u dom = true.
Proof.
  intros Hset.
  assert ((forall u, u ∈ queued (steps n (init files0)) ->
                     u = base_url \/ is_valid_link u dom = true)
          /\ forall u, Fetched u ∈ log (steps n (init files0)) ->
                       u = base_url \/ is_valid_link u dom = true)
    as [_ H]; [|exact H].
  apply (invariant
           (fun s => (forall u, u ∈ queued s ->
                                u = base_url \/ is_valid_link u dom = true)
                     /\ forall u, Fetched u ∈ log s ->
                                  u = base_url \/ is_valid_link u dom = true)).
  - intros s [Hq Hl] Hc.
    destruct (loop_cond_true _ _ Hc) as [(url & depth & rest & Hs) _].
    destruct (loop_body_detail s url depth rest Hs) as (_ & _ & Hqueue).
    destruct (body_spec s url depth rest Hs) as [_ Hcases].
    cbn zeta in Hcases.
    assert (Hhead : url = base_url \/ is_valid_link url dom = true).
    { apply Hq. rewrite Hs. left. }
    assert (Hrest : forall u, u ∈ List.map fst rest ->
                              u = base_url \/ is_valid_link u dom = true).
    { intros u Hu. apply Hq. rewrite Hs. by right. }
    split.
    + intros u Hu.
      destruct Hqueue
        as [Hr|(html & links & new & _ & _ & _ & Hnav & Hr & _ & Hnew)];
        rewrite Hr in Hu; [by apply Hrest|].
      rewrite map_app, queued_entries_at in Hu.
      apply elem_of_app in Hu as [Hu|Hu]; [by apply Hrest|].
      right. apply Hnew in Hu as (Hu & _).
      by eapply get_nav_links_valid.
    + intros u.
      destruct Hcases
        as [(_ & _ & _ & ->)
           |[(_ & _ & _ & e & Hfail & ->)|(_ & new & _ & _ & _ & ->)]].
      * rewrite elem_of_app, list_elem_of_singleton.
        intros [?|?]; [by apply Hl | done].
      * rewrite elem_of_app, !elem_of_cons, elem_of_nil.
        intros [?|[?|[[= ->]|[Heq|[]]]]]; [by apply Hl | done | done |].
        by destruct Hfail as [->|(? & _ & ->)].
      * rewrite !elem_of_app, !elem_of_cons, !elem_of_nil.
        intros [?|[[?|[[= ->]|[]]]|[H|[?|[?|[]]]]]]; try done.
        -- by apply Hl.
        -- by apply elem_of_enqueued_by in H as (? & ? & _).
  - cbn. split.
    + intros u Hu. apply list_elem_of_singleton in Hu. by left.
    + intros u Hu. by apply elem_of_nil in Hu.
Qed.

(** *** Counting the pages *)

Lemma scrape_count_step (s : crawl_state) :
  NoDup (scraped_urls (log s))
  /\ (forall u, u ∈ scraped_urls (log s) <-> u ∈ visited s)
  /\ length (scraped_urls (log s)) = size (visited s)
  /\ length (pauses (log s)) = size (visited s) ->
  cond s = true ->
  NoDup (scraped_urls (log (body s)))
  /\ (forall u, u ∈ scraped_urls (log (body s)) <-> u ∈ visited (body s))
  /\ length (scraped_urls (log (body s))) = size (visited (body s))
  /\ length (pauses (log (body s))) = size (visited (body s)).
Proof.
  intros (Hnd & Hin & Hlen & Hp) Hc.
  destruct (loop_cond_true _ _ Hc) as [(url & depth & rest & Hs) _].
  destruct (body_spec s url depth rest Hs) as [_ Hcases].
  cbn zeta in Hcases.
  destruct Hcases
    as [(_ & Hv & _ & Hl)
       |[(_ & Hv & _ & e & Hfail & Hl)|(Hnew & new & _ & Hv & _ & Hl)]];
    rewrite Hl, Hv, ?scraped_urls_app, ?pauses_app.
  - cbn. by rewrite !app_nil_r.
  - assert (scraped_urls [Dequeued url depth; Fetched url; e] = []
            /\ pauses [Dequeued url depth; Fetched url; e] = []) as [-> ->]
      by (by destruct Hfail as [->|(? & _ & ->)]).
    by rewrite !app_nil_r.
  - rewrite scraped_urls_enqueued, pauses_enqueued. cbn [app].
    change (scraped_urls [Dequeued url depth; Fetched url]) with (@nil string).
    change (pauses [Dequeued url depth; Fetched url]) with (@nil Q).
    cbn [app scraped_urls pauses flat_map].
    rewrite !length_app, size_visited_add by done. cbn [length].
    split; [|split; [|split; lia]].
    + apply NoDup_app. split; [done|]. split; [|apply NoDup_singleton].
      intros x Hx Hx'. apply list_elem_of_singleton in Hx' as ->.
      by apply Hin in Hx.
    + intros u. rewrite elem_of_app, elem_of_union, list_elem_of_singleton,
        elem_of_singleton, Hin. done.
Qed.

(** X11.  The visited set, whose size [crawl_site] reports, has one
    element for every [visited.add]: no page is counted twice, and the
    number of pauses taken equals the number of pages counted. *)
Theorem pages_counted_once (files0 : gmap string artifact) (n : nat) :
  let s := steps n (init files0) in
  NoDup (scraped_urls (log s))
  /\ (forall u, u ∈ scraped_urls (log s) <-> u ∈ visited s)
  /\ length (scraped_urls (log s)) = size (visited s)
  /\ length (pauses (log s)) = size (visited s).
Proof.
  cbn zeta. apply (invariant _ scrape_count_step).
  cbn. rewrite size_empty. repeat split; try done.
  - apply NoDup_nil_2.
  - intros H. by apply elem_of_nil in H.
Qed.

(** *** The files a crawl writes *)

Lemma loop_body_skip_files (s : crawl_state) (url : string) (depth : Z)
    (rest : list (string * Z)) :
  to_visit s = (url, depth) :: rest ->
  url ∈ visited s ->
  files (body s) = files s.
Proof.
  intros Hq Hin. unfold loop_body. rewrite Hq.
  cbn [visited emit set_to_visit tick].
  by rewrite bool_decide_eq_true_2.
Qed.

Lemma files_step (files0 : gmap string artifact) (s : crawl_state) :
  (forall p,
     (forall u, Fetched u ∈ log s ->
                p ≠ html_path dom u /\ p ≠ json_path dom u) ->
     files s !! p = files0 !! p) ->
  cond s = true ->
  forall p,
    (forall u, Fetched u ∈ log (body s) ->
               p ≠ html_path dom u /\ p ≠ json_path dom u) ->
    files (body s) !! p = files0 !! p.
Proof.
  intros IH Hc p Hp.
  destruct (loop_cond_true _ _ Hc) as [(url & depth & rest & Hs) _].
  destruct (loop_body_detail s url depth rest Hs) as (Hfiles & _).
  destruct (body_spec s url depth rest Hs) as [_ Hcases].
  cbn zeta in Hcases.
  assert (Hold : forall u, Fetched u ∈ log s ->
                           p ≠ html_path dom u /\ p ≠ json_path dom u).
  { intros u Hu. apply Hp.
    destruct Hcases
      as [(_ & _ & _ & ->)
         |[(_ & _ & _ & e & _ & ->)|(_ & new & _ & _ & _ & ->)]];
      apply elem_of_app; by left. }
  destruct Hcases
    as [(Hin & _)
       |[(_ & _ & _ & e & _ & Hl)|(_ & new & _ & _ & _ & Hl)]].
  - rewrite (loop_body_skip_files s url depth rest Hs Hin). by apply IH.
  - destruct (Hp url) as [H1 H2].
    { rewrite Hl. apply elem_of_app. right. right. left. }
    rewrite Hfiles by done. by apply IH.
  - destruct (Hp url) as [H1 H2].
    { rewrite Hl. apply elem_of_app. right. right. left. }
    rewrite Hfiles by done. by apply IH.
Qed.

(** X12.  A crawl leaves every file as it was, except the topical map of
    the domain and the two files of each URL it requested. *)
Theorem crawl_site_writes_own_files (files0 : gmap string artifact)
    (fuel : nat) (final : crawl_state) (result : option site_result)
    (p : string) :
  crawl_site lxml urljoin netloc list_of_set http_get disk_ok random_unit
             base_url max_pages max_depth fuel files0
  = Some (final, result) ->
  p ≠ map_path netloc base_url ->
  (forall u, Fetched u ∈ log final ->
             p ≠ html_path dom u /\ p ≠ json_path dom u) ->
  files final !! p = files0 !! p.
Proof.
  unfold crawl_site. intros H Hmap Hp.
  destruct (crawl_loop _ _ _ _ _ _ _ _ _ _ fuel (init files0))
    as [s|] eqn:Hrun; [|done].
  injection H as H.
  destruct (crawl_loop_after _ _ _ _ _ _ _ _ _ _ _ _ _ Hrun) as (_ & n & ->).
  assert (Hfin : log final = log (steps n (init files0))
                 /\ files final !! p = files (steps n (init files0)) !! p).
  { unfold finish in H.
    destruct (disk_ok _ TOPICAL_MAPS_DIR); [|by injection H as <- _].
    destruct (disk_ok _ (map_path netloc base_url));
      [|by injection H as <- _].
    injection H as <- _. cbn [log files write_file]. split; [done|].
    by rewrite lookup_insert_ne. }
  destruct Hfin as [Hlog ->]. rewrite Hlog in Hp. revert p Hmap Hp.
  assert (forall p,
            (forall u, Fetched u ∈ log (steps n (init files0)) ->
                       p ≠ html_path dom u /\ p ≠ json_path dom u) ->
            files (steps n (init files0)) !! p = files0 !! p) as Hall.
  { apply (invariant
             (fun s => forall p,
                (forall u, Fetched u ∈ log s ->
                           p ≠ html_path dom u /\ p ≠ json_path dom u) ->
                files s !! p = files0 !! p)).
    - intros s IH Hc. by apply files_step.
    - done. }
  intros p _ Hp. by apply Hall.
Qed.

(** *** The topical map *)

(** X13.  Every page of the topical map has the empty list of children. *)
Theorem topical_map_is_flat (files0 : gmap string artifact) (n : nat)
    (label : string) (children : list string) :
  topical_map (steps n (init files0)) !! label = Some children ->
  children = [].
Proof.
  revert label children.
  apply (invariant
           (fun s => forall label children,
              topical_map s !! label = Some children -> children = [])).
  - intros s IH Hc label children.
    destruct (loop_cond_true _ _ Hc) as [(url & depth & rest & Hs) _].
    destruct (loop_body_detail s url depth rest Hs)
      as (_ & [->|[key ->]] & _); [apply IH|].
    destruct (decide (key = label)) as [->|Hne].
    + rewrite lookup_insert_eq. congruence.
    + rewrite lookup_insert_ne by done. apply IH.
  - intros label children H. cbn [topical_map initial_state] in H.
    by rewrite lookup_empty in H.
Qed.

(** *** Small depths *)

(** X14.  With [max_depth] at most 0 nothing is ever appended to the
    queue: the seed is the only URL requested, and it is requested at
    most once. *)
Theorem no_expansion_at_depth_zero (files0 : gmap string artifact)
    (n : nat) :
  max_depth <= 0 ->
  let s := steps n (init files0) in
  (fetched_urls (log s) = [] \/ fetched_urls (log s) = [base_url])
  /\ (forall l d p pd, Enqueued l d p pd ∉ log s)
  /\ visited s ⊆ {[base_url]}.
Proof.
  intros Hmax. cbn zeta.
  assert ((to_visit (steps n (init files0)) = [(base_url, 0)]
           /\ log (steps n (init files0)) = []
           /\ visited (steps n (init files0)) = ∅)
          \/ (to_visit (steps n (init files0)) = []
              /\ fetched_urls (log (steps n (init files0))) = [base_url]
              /\ (forall l d p pd,
                    Enqueued l d p pd ∉ log (steps n (init files0)))
              /\ visited (steps n (init files0)) ⊆ {[base_url]})) as H.
  { apply (invariant
             (fun s => (to_visit s = [(base_url, 0)] /\ log s = []
                        /\ visited s = ∅)
                       \/ (to_visit s = []
                           /\ fetched_urls (log s) = [base_url]
                           /\ (forall l d p pd, Enqueued l d p pd ∉ log s)
                           /\ visited s ⊆ {[base_url]}))).
    - intros s [(Hq & Hl & Hv)|(Hq & _)] Hc.
      2:{ destruct (loop_cond_true _ _ Hc) as [(? & ? & ? & Hs) _].
          congruence. }
      right.
      destruct (body_spec s base_url 0 [] Hq) as [_ Hcases].
      cbn zeta in Hcases. rewrite Hl, Hv in Hcases.
      destruct Hcases
        as [(Hin & _)
           |[(_ & Hv' & Hq' & e & Hfail & Hl')
            |(_ & new & Hnew & Hv' & Hq' & Hl')]].
      + by apply not_elem_of_empty in Hin.
      + rewrite Hq', Hl', Hv'. repeat split; try done.
        * by destruct Hfail as [->|(? & _ & ->)].
        * intros l d p pd. cbn [app]. rewrite !elem_of_cons, elem_of_nil.
          intros [?|[?|[Heq|[]]]]; try done.
          by destruct Hfail as [->|(? & _ & ->)].
      + destruct new as [|l new]; [|exfalso; assert (0 < max_depth) by
          (by apply Hnew); lia].
        rewrite Hq', Hl', Hv'. cbn. repeat split; try done.
        * intros l d p pd. rewrite !elem_of_cons, elem_of_nil.
          by intros [?|[?|[?|[?|[]]]]].
        * apply union_least; [apply empty_subseteq | done].
    - left. done. }
  destruct H as [(_ & -> & ->)|(_ & H1 & H2 & H3)].
  - split; [by left|]. split; [|done].
    intros l d p pd H. by apply elem_of_nil in H.
  - split; [by right | by split].
Qed.

Lemma depth_one_step (s : crawl_state) :
  max_depth <= 1 ->
  (to_visit s = [(base_url, 0)] /\ log s = [] /\ visited s = ∅)
  \/ (Forall (fun e => 1 <= e.2) (to_visit s)
      /\ NoDup (queued s)
      /\ NoDup (fetched_urls (log s))
      /\ forall u, u ∈ queued s -> u ∈ fetched_urls (log s) ->
                   u ∈ visited s) ->
  cond s = true ->
  Forall (fun e => 1 <= e.2) (to_visit (body s))
  /\ NoDup (queued (body s))
  /\ NoDup (fetched_urls (log (body s)))
  /\ forall u, u ∈ queued (body s) -> u ∈ fetched_urls (log (body s)) ->
               u ∈ visited (body s).
Proof.
  intros Hmax Hinv Hc.
  destruct (loop_cond_true _ _ Hc) as [(url & depth & rest & Hs) _].
  destruct (body_spec s url depth rest Hs) as [_ Hcases].
  cbn zeta in Hcases.
  assert (Hnd' : NoDup (queued s) -> NoDup (queued (body s)))
    by (intros; by apply queue_nodup_step).
  destruct Hinv as [(Hq & Hl & Hv)|(Hd & Hnd & Hf & Hin)].
  - rewrite Hq in Hs. injection Hs as <- <- <-.
    specialize (Hnd' ltac:(rewrite Hq; apply NoDup_singleton)).
    rewrite Hl, Hv in Hcases.
    destruct Hcases
      as [(Hin & _)
         |[(_ & Hv' & Hq' & e & Hfail & Hl')
          |(_ & new & Hnew & Hv' & Hq' & Hl')]].
    + by apply not_elem_of_empty in Hin.
    + rewrite Hq', Hl'. split; [done|]. split; [apply NoDup_nil_2|]. split.
      * assert (fetched_urls ([] ++ [Dequeued base_url 0; Fetched base_url; e])
                = [base_url]) as ->
          by (by destruct Hfail as [->|(? & _ & ->)]).
        apply NoDup_singleton.
      * intros u Hu. by apply elem_of_nil in Hu.
    + split; [|split; [done|split]].
      * rewrite Hq'. apply Forall_forall. intros [l d] Hld.
        apply list_elem_of_In, in_map_iff in Hld as (? & [= <- <-] & _).
        cbn. lia.
      * rewrite Hl'. rewrite !fetched_urls_app,
          fetched_urls_enqueued. cbn. apply NoDup_singleton.
      * intros u _. rewrite Hl', Hv'.
        rewrite !fetched_urls_app, fetched_urls_enqueued. cbn.
        intros Hu. apply list_elem_of_singleton in Hu as ->.
        apply elem_of_union. right. by apply elem_of_singleton.
  - specialize (Hnd' Hnd). rewrite Hs in Hd, Hnd, Hin.
    cbn [List.map fst] in Hnd, Hin.
    apply Forall_cons in Hd as [Hhead Hd]. cbn in Hhead.
    apply NoDup_cons in Hnd as [Hurl Hnd].
    destruct Hcases
      as [(Hv0 & Hv' & Hq' & Hl')
         |[(Hv0 & Hv' & Hq' & e & Hfail & Hl')
          |(Hv0 & new & Hnew & Hv' & Hq' & Hl')]].
    + rewrite Hq', Hl', Hv', fetched_urls_app. cbn. rewrite app_nil_r.
      repeat split; try done.
      intros u Hu. apply Hin. by right.
    + assert (Hfresh : url ∉ fetched_urls (log s)).
      { intros Hu. apply Hv0, Hin; [left | done]. }
      rewrite Hq', Hl', Hv', fetched_urls_app.
      assert (fetched_urls [Dequeued url depth; Fetched url; e] = [url])
        as -> by (by destruct Hfail as [->|(? & _ & ->)]).
      repeat split; try done.
      * apply NoDup_app. split; [done|]. split; [|apply NoDup_singleton].
        intros x Hx Hx'. by apply list_elem_of_singleton in Hx' as ->.
      * intros u Hu Hu'. apply elem_of_app in Hu' as [Hu'|Hu'].
        -- apply Hin; [by right | done].
        -- apply list_elem_of_singleton in Hu' as ->. done.
    + assert (Hfresh : url ∉ fetched_urls (log s)).
      { intros Hu. apply Hv0, Hin; [left | done]. }
      destruct new as [|l new]; [|exfalso; assert (depth < max_depth) by
          (by apply Hnew); lia].
      cbn [List.map app] in Hq', Hl'. rewrite app_nil_r in Hq'.
      rewrite Hq', Hl', Hv', fetched_urls_app. cbn.
      repeat split; try done.
      * apply NoDup_app. split; [done|]. split; [|apply NoDup_singleton].
        intros x Hx Hx'. by apply list_elem_of_singleton in Hx' as ->.
      * intros u Hu Hu'. apply elem_of_union.
        apply elem_of_app in Hu' as [Hu'|Hu'].
        -- left. apply Hin; [by right | done].
        -- apply list_elem_of_singleton in Hu' as ->. done.
Qed.

(** X15.  With [max_depth] at most 1, which is the default of the command
    line, no URL is requested twice during a crawl. *)
Theorem no_refetch_at_depth_one (files0 : gmap string artifact) (n : nat) :
  max_depth <= 1 ->
  NoDup (fetched_urls (log (steps n (init files0)))).
Proof.
  intros Hmax.
  assert ((to_visit (steps n (init files0)) = [(base_url, 0)]
           /\ log (steps n (init files0)) = []
           /\ visited (steps n (init files0)) = ∅)
          \/ (Forall (fun e => 1 <= e.2) (to_visit (steps n (init files0)))
              /\ NoDup (queued (steps n (init files0)))
              /\ NoDup (fetched_urls (log (steps n (init files0))))
              /\ forall u, u ∈ queued (steps n (init files0)) ->
                           u ∈ fetched_urls (log (steps n (init files0))) ->
                           u ∈ visited (steps n (init files0)))) as H.
  { apply (invariant
             (fun s => (to_visit s = [(base_url, 0)] /\ log s = []
                        /\ visited s = ∅)
                       \/ (Forall (fun e => 1 <= e.2) (to_visit s)
                           /\ NoDup (queued s)
                           /\ NoDup (fetched_urls (log s))
                           /\ forall u, u ∈ queued s ->
                                        u ∈ fetched_urls (log s) ->
                                        u ∈ visited s))).
    - intros s Hinv Hc. right. by apply depth_one_step.
    - by left. }
  destruct H as [(_ & -> & _)|(_ & _ & H & _)]; [apply NoDup_nil_2 | done].
Qed.

End CrawlMore.

(** ** The further properties on the small sites *)

Lemma requests_are_filtered_witness :
  (forall (X : gset string) (x : string), x ∈ elements X -> x ∈ X)
  /\ forall u,
       Fetched u
       ∈ log (after (Demo.lxml Demo.chain_site) Demo.urljoin Demo.netloc
                    elements (Demo.http_get Demo.chain_site) Demo.disk_ok
                    Demo.random_unit Demo.home 10 3 5
                    (initial_state Demo.home ∅)) ->
       u = Demo.home
       \/ is_valid_link u (site_domain Demo.netloc Demo.home) = true.
Proof.
  split; [intros X x; apply elem_of_elements|].
  apply (requests_are_filtered (Demo.lxml Demo.chain_site) Demo.urljoin
           Demo.netloc elements (Demo.http_get Demo.chain_site)
           Demo.disk_ok Demo.random_unit Demo.home 10 3 ∅ 5).
  intros X x. apply elem_of_elements.
Defined.

(** On a site that serves nothing, a file of the user is left alone. *)
Lemma crawl_site_writes_own_files_witness :
  exists final result,
    crawl_site (Demo.lxml []) Demo.urljoin Demo.netloc elements
               (Demo.http_get []) Demo.disk_ok Demo.random_unit
               Demo.home 10 3 5 {["notes.txt" := RawHtml "mine"]}
    = Some (final, result)
    /\ files final !! "notes.txt" = Some (RawHtml "mine").
Proof.
  pose (run := crawl_site (Demo.lxml []) Demo.urljoin Demo.netloc elements
                 (Demo.http_get []) Demo.disk_ok Demo.random_unit
                 Demo.home 10 3 5 {["notes.txt" := RawHtml "mine"]}).
  assert (Hlog : (fun out => log out.1) <$> run
                 = Some [Dequeued Demo.home 0; Fetched Demo.home;
                         FailedStatus Demo.home 500])
    by (by vm_compute).
  destruct run as [[final result]|] eqn:E; [|done].
  injection Hlog as Hlog. cbn [fst] in Hlog.
  exists final, result. split; [done|].
  rewrite (crawl_site_writes_own_files (Demo.lxml []) Demo.urljoin
             Demo.netloc elements (Demo.http_get []) Demo.disk_ok
             Demo.random_unit Demo.home 10 3
             {["notes.txt" := RawHtml "mine"]} 5 final result "notes.txt" E).
  - apply lookup_singleton_eq.
  - by vm_compute.
  - intros u Hu. rewrite Hlog, !elem_of_cons, elem_of_nil in Hu.
    destruct Hu as [?|[[= ->]|[?|[]]]]; done.
Defined.

Lemma topical_map_is_flat_witness :
  topical_map
    (after (Demo.lxml Demo.chain_site) Demo.urljoin Demo.netloc elements
           (Demo.http_get Demo.chain_site) Demo.disk_ok Demo.random_unit
           Demo.home 10 3 5 (initial_state Demo.home ∅)) !! "Home"
  = Some []
  /\ @nil string = [].
Proof.
  split; [by vm_compute|].
  apply (topical_map_is_flat (Demo.lxml Demo.chain_site) Demo.urljoin
           Demo.netloc elements (Demo.http_get Demo.chain_site)
           Demo.disk_ok Demo.random_unit Demo.home 10 3 ∅ 5 "Home" []).
  by vm_compute.
Defined.

Lemma no_expansion_at_depth_zero_witness :
  0 <= 0
  /\ forall l d p pd,
       Enqueued l d p pd
       ∉ log (after (Demo.lxml Demo.chain_site) Demo.urljoin Demo.netloc
                    elements (Demo.http_get Demo.chain_site) Demo.disk_ok
                    Demo.random_unit Demo.home 10 0 5
                    (initial_state Demo.home ∅)).
Proof.
  split; [lia|].
  apply (no_expansion_at_depth_zero (Demo.lxml Demo.chain_site) Demo.urljoin
           Demo.netloc elements (Demo.http_get Demo.chain_site)
           Demo.disk_ok Demo.random_unit Demo.home 10 0 ∅ 5).
  lia.
Defined.

Lemma no_refetch_at_depth_one_witness :
  1 <= 1
  /\ NoDup (fetched_urls
              (log (after (Demo.lxml Demo.chain_site) Demo.urljoin
                          Demo.netloc elements
                          (Demo.http_get Demo.chain_site) Demo.disk_ok
                          Demo.random_unit Demo.home 10 1 5
                          (initial_state Demo.home ∅)))).
Proof.
  split; [lia|].
  apply (no_refetch_at_depth_one (Demo.lxml Demo.chain_site) Demo.urljoin
           Demo.netloc elements (Demo.http_get Demo.chain_site)
           Demo.disk_ok Demo.random_unit Demo.home 10 1 ∅ 5).
  lia.
Defined.

(** ** The two files of a page *)

Lemma append_cancel (a x y : string) : a ++ x = a ++ y -> x = y.
Proof.
  induction a as [|c a IH]; [done|]. cbn. intros [= H]. by apply IH.
Qed.

Lemma name_not_absolute (name ext : string) :
  PyStr.contains "/" name = false ->
  PyStr.startswith ext "/" = false ->
  PyStr.startswith (name ++ ext) "/" = false.
Proof.
  intros Hname Hext. destruct name as [|c name]; [done|].
  rewrite contains_char_cons in Hname.
  apply orb_false_iff in Hname as [Hc _].
  unfold PyStr.startswith.
  change (String c name ++ ext) with (String c (name ++ ext)).
  cbn [String.prefix]. by destruct (ascii_dec "/" c).
Qed.

Lemma path_join_relative (a b1 b2 : string) :
  PyStr.startswith b1 "/" = false ->
  PyStr.startswith b2 "/" = false ->
  path_join a b1 = path_join a b2 -> b1 = b2.
Proof.
  unfold path_join. intros -> ->. destruct a as [|c a]; [done|].
  destruct (PyStr.startswith (String.rev (String c a)) "/").
  - apply append_cancel.
  - intros H. apply append_cancel in H. by injection H.
Qed.

Lemma html_json_paths_differ (d url : string) :
  html_path d url ≠ json_path d url.
Proof.
  unfold html_path, json_path. intros H.
  pose proof (safe_filename_characters
                (PyStr.or_else
                   (PyStr.replace
                      (PyStr.replace url ("https://" ++ d) "")
                      ("http://" ++ d) "")
                   "home")) as Hsafe.
  apply Forall_cons in Hsafe as [Hslash _].
  fold (filename_base d url) in Hslash.
  apply path_join_relative in H; [|by apply name_not_absolute..].
  apply append_cancel in H. done.
Qed.

Section CrawlArtifacts.

Local Open Scope list_scope.

Variable lxml : string -> node.
Variable urljoin : string -> string -> option string.
Variable netloc : string -> string.
Variable list_of_set : gset string -> list string.
Variable http_get : nat -> string -> option (Z * string).
Variable disk_ok : nat -> string -> bool.
Variable random_unit : nat -> Q.
Variable base_url : string.
Variable max_pages max_depth : Z.

#[local] Abbreviation body :=
  (loop_body lxml urljoin netloc list_of_set http_get disk_ok random_unit
             base_url max_depth).
#[local] Abbreviation cond := (loop_cond max_pages).
#[local] Abbreviation steps :=
  (after lxml urljoin netloc list_of_set http_get disk_ok random_unit
         base_url max_pages max_depth).
#[local] Abbreviation init := (initial_state base_url).
#[local] Abbreviation dom := (site_domain netloc base_url).

(** What [save_page] leaves at the two paths when it returns. *)
Lemma save_page_round_trip (d url html : string) (info : page_info)
    (s : crawl_state) :
  (save_page disk_ok d url html info s).2 = true ->
  files (save_page disk_ok d url html info s).1 !! html_path d url
  = Some (RawHtml html)
  /\ files (save_page disk_ok d url html info s).1 !! json_path d url
     = Some (PageJson info).
Proof.
  unfold save_page.
  destruct (disk_ok (clock s) (path_join RAW_PAGES_DIR d)); [|done].
  destruct (disk_ok (clock s) (html_path d url)); [|done].
  destruct (disk_ok (clock s) (json_path d url)); [|done].
  intros _. cbn [negb fst files write_file]. split.
  - rewrite lookup_insert_ne by (symmetry; apply html_json_paths_differ).
    apply lookup_insert_eq.
  - apply lookup_insert_eq.
Qed.

Lemma save_page_keeps_files (d url html p : string) (info : page_info)
    (s : crawl_state) :
  is_Some (files s !! p) ->
  is_Some (files (save_page disk_ok d url html info s).1 !! p).
Proof.
  intros Hp. unfold save_page.
  destruct (disk_ok (clock s) (path_join RAW_PAGES_DIR d)); [|done].
  destruct (disk_ok (clock s) (html_path d url)); [|done].
  destruct (disk_ok (clock s) (json_path d url));
    cbn [negb fst files write_file];
    rewrite ?lookup_insert_is_Some'; auto.
Qed.

(** The files stay, and a page that enters the visited set has its two. *)
Lemma loop_body_artifacts (s : crawl_state) (url : string) (depth : Z)
    (rest : list (string * Z)) :
  to_visit s = (url, depth) :: rest ->
  (forall p, is_Some (files s !! p) -> is_Some (files (body s) !! p))
  /\ (url ∉ visited s -> url ∈ visited (body s) ->
      is_Some (files (body s) !! html_path dom url)
      /\ is_Some (files (body s) !! json_path dom url)).
Proof.
  intros Hq. unfold loop_body. rewrite Hq.
  cbn [visited emit set_to_visit tick].
  destruct (bool_decide (url ∈ visited s)) eqn:Hin.
  { apply bool_decide_eq_true in Hin. by cbn. }
  apply bool_decide_eq_false in Hin.
  unfold visit. cbn [clock emit set_to_visit tick].
  destruct (http_get (S (clock s)) url) as [[status html]|]; [|by cbn].
  destruct (status =? 200); cbn [negb]; [|by cbn].
  destruct (extract_info lxml html) as [info|]; [|by cbn].
  match goal with
  | |- context [save_page ?dk ?d ?u ?h ?i ?st] =>
      pose proof (save_page_frame dk d u h i st) as Hframe;
      pose proof (save_page_round_trip d u h i st) as Hround;
      pose proof (fun p => save_page_keeps_files d u h p i st) as Hkeep;
      destruct (save_page dk d u h i st) as [s1 ok]
  end.
  cbn [fst snd files emit set_to_visit tick] in Hframe, Hround, Hkeep.
  destruct Hframe as (Hv1 & _).
  cbn [visited emit set_to_visit tick] in Hv1.
  destruct ok.
  2:{ cbn. rewrite Hv1. split; [done|]. by intros _ ?. }
  destruct (Hround eq_refl) as [Hhtml Hjson].
  destruct (depth <? max_depth).
  - destruct (get_nav_links lxml urljoin list_of_set html base_url dom)
      as [links|].
    2:{ cbn. rewrite Hv1. split; [done|]. by intros _ ?. }
    match goal with
    | |- context [enqueue_links links url depth ?st] =>
        destruct (enqueue_links_frame links url depth st) as (Hf2 & _)
    end.
    cbn [files set_topical_map] in Hf2. unfold random_delay.
    cbn [files emit set_visited]. rewrite Hf2.
    split; [done|]. intros _ _. rewrite Hhtml, Hjson. by split.
  - unfold random_delay. cbn [files emit set_visited set_topical_map].
    split; [done|]. intros _ _. rewrite Hhtml, Hjson. by split.
Qed.

(** X17.  Every page in the visited set has its two files on the disk. *)
Theorem visited_pages_have_artifacts (files0 : gmap string artifact)
    (n : nat) (u : string) :
  u ∈ visited (steps n (init files0)) ->
  is_Some (files (steps n (init files0)) !! html_path dom u)
  /\ is_Some (files (steps n (init files0)) !! json_path dom u).
Proof.
  revert u.
  apply (after_invariant lxml urljoin netloc list_of_set http_get disk_ok
           random_unit base_url max_pages max_depth
           (fun s => forall u, u ∈ visited s ->
              is_Some (files s !! html_path dom u)
              /\ is_Some (files s !! json_path dom u))).
  - intros s IH Hc u Hu.
    destruct (loop_cond_true _ _ Hc) as [(url & depth & rest & Hs) _].
    destruct (loop_body_artifacts s url depth rest Hs) as [Hkeep Hnew].
    destruct (decide (u ∈ visited s)) as [Hold|Hfresh].
    + destruct (IH u Hold). split; by apply Hkeep.
    + assert (u = url) as ->; [|by apply Hnew].
      destruct (loop_body_spec lxml urljoin netloc list_of_set http_get
                  disk_ok random_unit base_url max_depth s url depth rest Hs)
        as [_ Hcases].
      cbn zeta in Hcases.
      destruct Hcases
        as [(_ & Hv & _)|[(_ & Hv & _)|(_ & new & _ & Hv & _)]];
        rewrite Hv in Hu; try done.
      apply elem_of_union in Hu as [?|Hu]; [done|].
      by apply elem_of_singleton in Hu.
  - intros u Hu. by apply not_elem_of_empty in Hu.
Qed.

Lemma save_page_succeeds (d url html : string) (info : page_info)
    (s : crawl_state) :
  disk_ok (clock s) (path_join RAW_PAGES_DIR d) = true ->
  disk_ok (clock s) (html_path d url) = true ->
  disk_ok (clock s) (json_path d url) = true ->
  (save_page disk_ok d url html info s).2 = true.
Proof. unfold save_page. by intros -> -> ->. Qed.

(** [save_page] returns exactly when the directory and the two files can
    be opened. *)
Lemma save_page_returns (d url html : string) (info : page_info)
    (s : crawl_state) :
  (save_page disk_ok d url html info s).2 = true <->
  disk_ok (clock s) (path_join RAW_PAGES_DIR d) = true
  /\ disk_ok (clock s) (html_path d url) = true
  /\ disk_ok (clock s) (json_path d url) = true.
Proof.
  unfold save_page.
  destruct (disk_ok (clock s) (path_join RAW_PAGES_DIR d));
    [|split; [done | by intros (? & _)]].
  destruct (disk_ok (clock s) (html_path d url));
    [|split; [done | by intros (_ & ? & _)]].
  destruct (disk_ok (clock s) (json_path d url));
    [done | split; [done | by intros (_ & _ & ?)]].
Qed.


(** X18.  When a page below [max_depth] is fetched with status 200, parsed
    and saved, and the link extractor returns, the page is in the visited
    set afterwards and each of its links is visited or waits in the
    queue: no link is lost. *)
Theorem scraped_page_links_are_known (s : crawl_state) (url html : string)
    (depth : Z) (rest : list (string * Z)) (info : page_info)
    (links : list string) :
  to_visit s = (url, depth) :: rest ->
  url ∉ visited s ->
  http_get (S (clock s)) url = Some (200, html) ->
  extract_info lxml html = Some info ->
  disk_ok (S (clock s)) (path_join RAW_PAGES_DIR dom) = true ->
  disk_ok (S (clock s)) (html_path dom url) = true ->
  disk_ok (S (clock s)) (json_path dom url) = true ->
  depth < max_depth ->
  get_nav_links lxml urljoin list_of_set html base_url dom = Some links ->
  visited (body s) = visited s ∪ {[url]}
  /\ forall l, l ∈ links ->
       l ∈ visited s
       \/ (l, depth + 1) ∈ to_visit (body s)
       \/ l ∈ List.map fst rest.
Proof.
  intros Hq Hnew Hget Hparse Hd1 Hd2 Hd3 Hdepth Hnav.
  unfold loop_body. rewrite Hq. cbn [visited emit set_to_visit tick].
  rewrite bool_decide_eq_false_2 by done.
  unfold visit. cbn [clock emit set_to_visit tick].
  rewrite Hget, Hparse. cbn [Z.eqb Pos.eqb negb].
  apply Z.ltb_lt in Hdepth. rewrite Hdepth, Hnav.
  match goal with
  | |- context [save_page ?dk ?d ?u ?h ?i ?st] =>
      pose proof (save_page_frame dk d u h i st) as Hframe;
      pose proof (save_page_succeeds d u h i st Hd1 Hd2 Hd3) as Hok;
      destruct (save_page dk d u h i st) as [s1 ok]
  end.
  cbn [fst snd visited to_visit emit set_to_visit tick] in Hframe, Hok.
  destruct Hframe as (Hv1 & Hq1 & _). subst ok.
  match goal with
  | |- context [enqueue_links links url depth ?st] =>
      destruct (enqueue_links_detail links url depth st)
        as (new & Hq2 & _ & Hin2);
      destruct (enqueue_links_spec links url depth st)
        as (new' & Hv2 & _)
  end.
  cbn [to_visit visited set_topical_map] in Hq2, Hin2, Hv2.
  rewrite Hq1 in Hq2, Hin2. rewrite Hv1 in Hin2, Hv2.
  unfold random_delay. cbn [visited to_visit emit set_visited].
  rewrite Hv2, Hq2. split; [done|].
  intros l Hl.
  destruct (decide (l ∈ visited s)) as [?|Hnv]; [by left|].
  destruct (decide (l ∈ List.map fst rest)) as [?|Hnq]; [by right; right|].
  right; left. apply elem_of_app. right.
  apply list_elem_of_In, in_map_iff. exists l. split; [done|].
  apply list_elem_of_In, Hin2. done.
Qed.

End CrawlArtifacts.

(** The home page of the chain site is scraped from the initial state, and
    its links [a] and [b] are queued at depth 1. *)
Lemma scraped_page_links_are_known_witness :
  to_visit (initial_state Demo.home ∅) = [(Demo.home, 0)]
  /\ forall l, l ∈ [Demo.page_a; Demo.page_b] ->
       l ∈ visited (initial_state Demo.home ∅)
       \/ (l, 0 + 1)
          ∈ to_visit
              (loop_body (Demo.lxml Demo.chain_site) Demo.urljoin
                         Demo.netloc elements
                         (Demo.http_get Demo.chain_site) Demo.disk_ok
                         Demo.random_unit Demo.home 3
                         (initial_state Demo.home ∅))
       \/ l ∈ List.map fst (@nil (string * Z)).
Proof.
  split; [reflexivity|].
  apply (scraped_page_links_are_known (Demo.lxml Demo.chain_site)
           Demo.urljoin Demo.netloc elements (Demo.http_get Demo.chain_site)
           Demo.disk_ok Demo.random_unit Demo.home 3
           (initial_state Demo.home ∅) Demo.home
           (Demo.markup_of (Demo.Page Demo.home "Home" [Demo.page_a; Demo.page_b]))
           0 []
           (PageInfo "Home" "" []
              "Home go go")).
  - reflexivity.
  - apply not_elem_of_empty.
  - by vm_compute.
  - by vm_compute.
  - reflexivity.
  - reflexivity.
  - reflexivity.
  - lia.
  - by vm_compute.
Defined.

Lemma visited_pages_have_artifacts_witness :
  Demo.home
  ∈ visited (after (Demo.lxml Demo.chain_site) Demo.urljoin Demo.netloc
                   elements (Demo.http_get Demo.chain_site) Demo.disk_ok
                   Demo.random_unit Demo.home 10 3 5
                   (initial_state Demo.home ∅))
  /\ is_Some
       (files (after (Demo.lxml Demo.chain_site) Demo.urljoin Demo.netloc
                     elements (Demo.http_get Demo.chain_site) Demo.disk_ok
                     Demo.random_unit Demo.home 10 3 5
                     (initial_state Demo.home ∅))
        !! html_path (site_domain Demo.netloc Demo.home) Demo.home).
Proof.
  set (s := after (Demo.lxml Demo.chain_site) Demo.urljoin Demo.netloc
                  elements (Demo.http_get Demo.chain_site) Demo.disk_ok
                  Demo.random_unit Demo.home 10 3 5
                  (initial_state Demo.home ∅)).
  assert (H : Demo.home ∈ visited s).
  { apply (bool_decide_eq_true_1 (Demo.home ∈ visited s)). by vm_compute. }
  split; [exact H|].
  apply (visited_pages_have_artifacts (Demo.lxml Demo.chain_site)
           Demo.urljoin Demo.netloc elements (Demo.http_get Demo.chain_site)
           Demo.disk_ok Demo.random_unit Demo.home 10 3 ∅ 5 Demo.home H).
Defined.

(** ** Which pages enter the visited set, and when the crawler pauses *)





Section CrawlOutcome.

Local Open Scope list_scope.

Variable lxml : string -> node.
Variable urljoin : string -> string -> option string.
Variable netloc : string -> string.
Variable list_of_set : gset string -> list string.
Variable http_get : nat -> string -> option (Z * string).
Variable disk_ok : nat -> string -> bool.
Variable random_unit : nat -> Q.
Variable base_url : string.
Variable max_pages max_depth : Z.

#[local] Abbreviation body :=
  (loop_body lxml urljoin netloc list_of_set http_get disk_ok random_unit
             base_url max_depth).
#[local] Abbreviation cond := (loop_cond max_pages).
#[local] Abbreviation steps :=
  (after lxml urljoin netloc list_of_set http_get disk_ok random_unit
         base_url max_pages max_depth).
#[local] Abbreviation init := (initial_state base_url).
#[local] Abbreviation dom := (site_domain netloc base_url).
#[local] Abbreviation enqueued_by url depth :=
  (List.map (fun l => Enqueued l (depth + 1) url depth)).
#[local] Abbreviation body_spec :=
  (loop_body_spec lxml urljoin netloc list_of_set http_get disk_ok
                  random_unit base_url max_depth).
#[local] Abbreviation invariant :=
  (after_invariant lxml urljoin netloc list_of_set http_get disk_ok
                   random_unit base_url max_pages max_depth).

(** Every step of the [try] block of lines 133 to 156 goes through for
    [url] at the time [now]: the request is answered with status 200, the
    parser returns, the directory and the two files can be written, and,
    below [max_depth], the link extractor returns. *)
#[local] Abbreviation scrape_succeeds now url depth :=
  (exists html info,
     http_get now url = Some (200, html)
     /\ extract_info lxml html = Some info
     /\ disk_ok now (path_join RAW_PAGES_DIR dom) = true
     /\ disk_ok now (html_path dom url) = true
     /\ disk_ok now (json_path dom url) = true
     /\ (depth < max_depth ->
         is_Some (get_nav_links lxml urljoin list_of_set html base_url dom))).

(** An iteration on an entry that is not visited scrapes it when every step
    goes through, and fails on it otherwise. *)
Lemma loop_body_outcome (s : crawl_state) (url : string) (depth : Z)
    (rest : list (string * Z)) :
  to_visit s = (url, depth) :: rest ->
  url ∉ visited s ->
  let now := S (clock s) in
  (scrape_succeeds now url depth
   /\ visited (body s) = visited s ∪ {[url]}
   /\ exists new,
        log (body s)
        = log s ++ [Dequeued url depth; Fetched url]
          ++ enqueued_by url depth new
          ++ [Scraped url; Slept (uniform (3 # 2) 5 (random_unit now))])
  \/ (~ scrape_succeeds now url depth
      /\ visited (body s) = visited s
      /\ to_visit (body s) = rest
      /\ exists e,
           ((http_get now url = None /\ e = Errored url)
            \/ (exists status html,
                  http_get now url = Some (status, html)
                  /\ status ≠ 200 /\ e = FailedStatus url status)
            \/ (exists html,
                  http_get now url = Some (200, html) /\ e = Errored url))
           /\ log (body s) = log s ++ [Dequeued url depth; Fetched url; e]).
Proof.
  intros Hq Hnew now. unfold loop_body. rewrite Hq.
  cbn [visited emit set_to_visit tick].
  rewrite bool_decide_eq_false_2 by done.
  unfold visit. cbn [clock emit set_to_visit tick]. fold now.
  destruct (http_get now url) as [[status html]|] eqn:Hget.
  2:{ right. split; [by intros (? & ? & ? & _)|]. cbn.
      repeat split; try done.
      exists (Errored url). split; [by left|]. by rewrite <- !app_assoc. }
  destruct (status =? 200) eqn:Est; cbn [negb].
  2:{ apply Z.eqb_neq in Est. right. split.
      { intros (h & i & Hg & _). congruence. }
      cbn. repeat split; try done.
      exists (FailedStatus url status). split.
      - right; left. by exists status, html.
      - by rewrite <- !app_assoc. }
  apply Z.eqb_eq in Est as ->.
  destruct (extract_info lxml html) as [info|] eqn:Hparse.
  2:{ right. split.
      { intros (h & i & Hg & Hp & _). injection Hg as <-. congruence. }
      cbn. repeat split; try done.
      exists (Errored url). split; [right; right; by exists html|].
      by rewrite <- !app_assoc. }
  match goal with
  | |- context [save_page ?dk ?d ?u ?h ?i ?st] =>
      pose proof (save_page_frame dk d u h i st) as Hframe;
      pose proof (save_page_returns dk d u h i st) as Hret;
      destruct (save_page dk d u h i st) as [s1 ok]
  end.
  cbn [fst snd visited to_visit log clock emit set_to_visit tick]
    in Hframe, Hret.
  fold now in Hret. destruct Hframe as (Hv1 & Hq1 & Hl1 & Hc1).
  destruct ok.
  2:{ right. split.
      { intros (h & i & _ & _ & H1 & H2 & H3 & _).
        assert (false = true) by (by apply Hret). done. }
      cbn. rewrite Hv1, Hq1, Hl1. repeat split; try done.
      exists (Errored url). split; [right; right; by exists html|].
      by rewrite <- !app_assoc. }
  destruct Hret as [Hret _]. destruct (Hret eq_refl) as (Hd1 & Hd2 & Hd3).
  destruct (depth <? max_depth) eqn:Ed.
  - destruct (get_nav_links lxml urljoin list_of_set html base_url dom)
      as [links|] eqn:Hnav.
    + match goal with
      | |- context [enqueue_links links url depth ?st] =>
          destruct (enqueue_links_spec links url depth st)
            as (new & Hv2 & Hc2 & Hq2 & Hl2)
      end.
      cbn zeta in *. cbn in Hv2, Hc2, Hq2, Hl2.
      left. split.
      { exists html, info.
        do 5 (split; [done|]). intros _. rewrite ?Hnav. by eexists. }
      unfold random_delay. cbn. rewrite Hv2, Hc2, Hl2, Hv1, Hl1, Hc1.
      split; [done|]. exists new. by rewrite <- !app_assoc.
    + right. split.
      { intros (h & i & Hg & _ & _ & _ & _ & Hn). injection Hg as <-.
        apply Z.ltb_lt in Ed. destruct (Hn Ed) as [? ?]. congruence. }
      cbn. rewrite Hv1, Hq1, Hl1. repeat split; try done.
      exists (Errored url). split; [right; right; by exists html|].
      by rewrite <- !app_assoc.
  - left. split.
    { exists html, info.
      do 5 (split; [done|]). intros Hlt. apply Z.ltb_ge in Ed. lia. }
    unfold random_delay. cbn. rewrite Hv1, Hl1, Hc1.
    split; [done|]. exists []. by rewrite <- !app_assoc.
Qed.





(** C9, amended.  The crawler pauses at the end of an iteration in which
    every step went through, after the page was put into the visited set,
    for a time between 1.5 and 5 seconds, and it pauses nowhere else: an
    iteration whose request raised or was answered with a status other
    than 200, or in which a later step raised, ends without a pause, and
    so does an iteration that skips an entry already visited.  Over a
    whole crawl the log is a sequence of such iterations, and there are as
    many pauses as pages in the visited set. *)
Theorem pause_only_after_success (files0 : gmap string artifact) (n : nat) :
  (forall t, (0 <= random_unit t)%Q /\ (random_unit t < 1)%Q) ->
  let s := steps n (init files0) in
  (exists blocks, log s = concat blocks /\ Forall iteration blocks)
  /\ (forall d, Slept d ∈ log s -> (3 # 2 <= d)%Q /\ (d <= 5)%Q)
  /\ length (pauses (log s)) = size (visited s)
  /\ forall url depth rest,
       to_visit s = (url, depth) :: rest ->
       let now := S (clock s) in
       (url ∈ visited s -> log (body s) = log s ++ [Dequeued url depth])
       /\ (url ∉ visited s -> http_get now url = None ->
           log (body s)
           = log s ++ [Dequeued url depth; Fetched url; Errored url])
       /\ (forall status html,
             url ∉ visited s ->
             http_get now url = Some (status, html) -> status ≠ 200 ->
             log (body s)
             = log s ++ [Dequeued url depth; Fetched url;
                         FailedStatus url status])
       /\ (url ∉ visited s -> ~ scrape_succeeds now url depth ->
           pauses (log (body s)) = pauses (log s)
           /\ exists e,
                (e = Errored url \/ exists status, e = FailedStatus url status)
                /\ log (body s)
                   = log s ++ [Dequeued url depth; Fetched url; e])
       /\ (url ∉ visited s -> scrape_succeeds now url depth ->
           exists new d,
             d = uniform (3 # 2) 5 (random_unit now)
             /\ (3 # 2 <= d)%Q /\ (d <= 5)%Q
             /\ pauses (log (body s)) = pauses (log s) ++ [d]
             /\ log (body s)
                = log s ++ [Dequeued url depth; Fetched url]
                  ++ enqueued_by url depth new ++ [Scraped url; Slept d]).
Proof.
  intros Hrand. cbn zeta.
  destruct (pause_follows_scrape_only lxml urljoin netloc list_of_set
              http_get disk_ok random_unit base_url max_pages max_depth
              files0 n Hrand) as (Hblocks & Hrange).
  cbn zeta in Hblocks, Hrange.
  refine (conj Hblocks (conj Hrange (conj _ _))).
  - assert (Hcount :
      NoDup (scraped_urls (log (steps n (init files0))))
      /\ (forall u, u ∈ scraped_urls (log (steps n (init files0)))
                    <-> u ∈ visited (steps n (init files0)))
      /\ length (scraped_urls (log (steps n (init files0))))
         = size (visited (steps n (init files0)))
      /\ length (pauses (log (steps n (init files0))))
         = size (visited (steps n (init files0)))).
    { apply (invariant _ (scrape_count_step lxml urljoin netloc list_of_set
                            http_get disk_ok random_unit base_url max_pages
                            max_depth)).
      cbn. rewrite size_empty. repeat split; try done.
      - apply NoDup_nil_2.
      - intros H. by apply elem_of_nil in H. }
    by destruct Hcount as (_ & _ & _ & ?).
  - intros url depth rest Hs.
    refine (conj _ (conj _ (conj _ (conj _ _)))).
    + intros Hin.
      destruct (body_spec _ url depth rest Hs) as [_ Hcases].
      cbn zeta in Hcases.
      by destruct Hcases as [(_ & _ & _ & Hl)|[(? & _)|(? & _)]].
    + intros Hnew Hget.
      destruct (loop_body_outcome _ url depth rest Hs Hnew)
        as [((h & i & Hg & _) & _)|(_ & _ & _ & e & He & Hl)];
        [congruence|].
      rewrite Hl.
      destruct He as [(_ & ->)|[(st & h & Hg & _)|(h & Hg & _)]];
        [done | congruence | congruence].
    + intros status html Hnew Hget Hst.
      destruct (loop_body_outcome _ url depth rest Hs Hnew)
        as [((h & i & Hg & _) & _)|(_ & _ & _ & e & He & Hl)];
        [congruence|].
      rewrite Hl.
      destruct He as [(Hg & _)|[(st & h & Hg & _ & ->)|(h & Hg & _)]];
        congruence.
    + intros Hnew Hfail.
      destruct (loop_body_outcome _ url depth rest Hs Hnew)
        as [(Hok & _)|(_ & _ & _ & e & He & Hl)]; [done|].
      rewrite Hl, pauses_app. split.
      * assert (pauses [Dequeued url depth; Fetched url; e] = []) as ->
          by (by destruct He
                as [(_ & ->)|[(? & ? & _ & _ & ->)|(? & _ & ->)]]).
        by rewrite app_nil_r.
      * exists e. split; [|done].
        destruct He as [(_ & ->)|[(st & ? & _ & _ & ->)|(? & _ & ->)]];
          [by left | right; by exists st | by left].
    + intros Hnew Hok.
      destruct (loop_body_outcome _ url depth rest Hs Hnew)
        as [(_ & _ & new & Hl)|(Hfail & _)]; [|done].
      exists new, (uniform (3 # 2) 5
                     (random_unit (S (clock (steps n (init files0)))))).
      split; [done|].
      destruct (uniform_range (random_unit
                                 (S (clock (steps n (init files0))))))
        as [Hlo Hhi]; [apply Hrand..|].
      refine (conj Hlo (conj Hhi (conj _ Hl))).
      rewrite Hl, !pauses_app, pauses_enqueued. cbn.
      done.
Qed.

End CrawlOutcome.


(** On a site that serves nothing the seed is answered with status 500 and
    the iteration ends without a pause; on the chain site the seed is
    scraped and the iteration ends with a pause of 3.25 seconds. *)
Lemma pause_only_after_success_witness :
  (forall t, (0 <= Demo.random_unit t)%Q /\ (Demo.random_unit t < 1)%Q)
  /\ log (loop_body (Demo.lxml []) Demo.urljoin Demo.netloc elements
                    (Demo.http_get []) Demo.disk_ok Demo.random_unit
                    Demo.home 3 (initial_state Demo.home ∅))
     = [Dequeued Demo.home 0; Fetched Demo.home; FailedStatus Demo.home 500]
  /\ pauses (log (loop_body (Demo.lxml Demo.chain_site) Demo.urljoin
                            Demo.netloc elements
                            (Demo.http_get Demo.chain_site) Demo.disk_ok
                            Demo.random_unit Demo.home 3
                            (initial_state Demo.home ∅)))
     = [26 # 8].
Proof.
  assert (H : forall t, (0 <= Demo.random_unit t)%Q
                        /\ (Demo.random_unit t < 1)%Q)
    by (intros t; split; reflexivity || (unfold Demo.random_unit; lra)).
  split; [exact H|]. split.
  - destruct (pause_only_after_success (Demo.lxml []) Demo.urljoin
                Demo.netloc elements (Demo.http_get []) Demo.disk_ok
                Demo.random_unit Demo.home 10 3 ∅ 0 H)
      as (_ & _ & _ & Hstep).
    destruct (Hstep Demo.home 0 [] eq_refl) as (_ & _ & Hstatus & _).
    apply (Hstatus 500 ""); [apply not_elem_of_empty | reflexivity | done].
  - destruct (pause_only_after_success (Demo.lxml Demo.chain_site)
                Demo.urljoin Demo.netloc elements
                (Demo.http_get Demo.chain_site) Demo.disk_ok
                Demo.random_unit Demo.home 10 3 ∅ 0 H)
      as (_ & _ & _ & Hstep).
    destruct (Hstep Demo.home 0 [] eq_refl) as (_ & _ & _ & _ & Hscrape).
    destruct Hscrape as (new & d & -> & _ & _ & Hp & _).
    + apply not_elem_of_empty.
    + exists (Demo.markup_of
                (Demo.Page Demo.home "Home" [Demo.page_a; Demo.page_b])),
             (PageInfo "Home" "" [] "Home go go").
      split; [by vm_compute|]. split; [by vm_compute|].
      do 3 (split; [reflexivity|]).
      intros _. exists [Demo.page_a; Demo.page_b]. by vm_compute.
    + exact Hp.
Defined.
